(** * FastLink: node selection, player commands, track-end recovery and
      voice correlation

    A shallow embedding of [index.js], [src/events/event/trackEnd.js] and
    [src/events/track/trackException.js].

    The module-level tables of [index.js] ([Config], [Nodes], [Players],
    [sessionIds]) become the fields of one [State] record, threaded through a
    small state-and-exception monad.  Two further fields record what the
    code sends out: the REST requests handed to [utils.makeRequest] and the
    events handed to [Event.emit].

    JavaScript numbers that the code computes with (the load figures) are
    IEEE doubles, Rocq's primitive [float]; numbers the code only passes on
    (ports, volumes) are integers.  The tables are modelled by their own
    properties: a key is looked up among the entries written to the table,
    and where the code tests whether an entry is there for a name its
    caller chooses ([createPlayer], the node queries), the names every
    object inherits from [Object.prototype] count as present, as they do in
    the code.  Everywhere else a key is the id of a guild or the host name
    of a node, taken not to be one of those names.  [console.log] calls are
    omitted, and so are the argument checks that reject values of the wrong
    JavaScript type, which the types of the embedding already exclude.  An [async]
    method is modelled by its synchronous effects; a rejected promise is a
    thrown value when the caller awaits it and is dropped otherwise. *)

From Stdlib Require Import PrimFloat.
From stdpp Require Import base option list strings gmap fin_maps.

Local Open Scope string_scope.
Local Open Scope list_scope.
Local Open Scope stdpp_scope.

(** ** Thrown values *)

Inductive error : Type :=
  | Error (msg : string)   (* [throw new Error(msg)] *)
  | TypeError.             (* property access on [undefined] *)

Inductive result (A : Type) : Type :=
  | Ok (a : A)
  | Throw (e : error).
Arguments Ok {A} a.
Arguments Throw {A} e.

(** ** Data model *)

(** [Config] as built by [connectNodes]. *)
Record config : Type := mkConfig {
  botId : string;
  shards : Z;
  queue : bool;
  debug : bool
}.

(** The load snapshot read by [getRecommendedNode]: two numbers. *)
Record Stats : Type := mkStats {
  systemLoad : float;
  cores : float
}.

(** An entry of [Nodes].  [stats] is [None] while the entry has no [stats]
    property, as after [connectNodes].  [nd_players] is the node-side slot
    table written by [destroy]: [None] when the entry has no [players]
    property, and in the table the value [None] is the [null] sentinel. *)
Record Node : Type := mkNode {
  hostname : string;
  password : string;
  secure : bool;
  port : Z;
  connected : bool;
  sessionId : option string;
  stats : option Stats;
  nd_players : option (gmap string (option unit))
}.

(** An entry of [Players].  [pl_queue] is [None] when the object has no
    [queue] property; [pl_track] is [None] when it has no [track] property
    and [Some None] when the property holds [null]. *)
Record PlayerState : Type := mkPlayerState {
  pl_connected : bool;
  pl_playing : bool;
  pl_paused : bool;
  pl_volume : option Z;
  pl_node : string;
  pl_queue : option (list string);
  pl_track : option (option string)
}.

(** The [voice] member of an update body. *)
Record Voice : Type := mkVoice {
  token : string;
  endpoint : string;
  v_sessionId : string
}.

(** The [body] argument of [update], which is also the body of every PATCH.
    A member is [None] when the property is [undefined]; for [encodedTrack],
    [Some None] is [null]. *)
Record Body : Type := mkBody {
  encodedTrack : option (option string);
  encodedTracks : option (list string);
  b_paused : option bool;
  b_volume : option Z;
  voice : option Voice
}.

Inductive Method : Type := GET | POST | PATCH | DELETE.

(** The arguments of one [utils.makeRequest(url, options)] call; the
    [Authorization] header and the port are [None] when [undefined]. *)
Record Request : Type := mkRequest {
  url : string;
  authorization : option string;
  body : option Body;
  rq_port : option Z;
  method : Method
}.

(** The payload of a player-scoped [event] frame. *)
Record Payload : Type := mkPayload {
  guildId : string;
  reason : option string;
  track : string
}.

(** The object passed to [Event.emit('trackEnd' | 'trackException', ...)]. *)
Record Notice : Type := mkNotice {
  n_node : option Node;
  n_guildId : string;
  n_player : PlayerState;
  n_track : string
}.

Inductive Emitted : Type :=
  | EmDebug (msg : string)
  | EmTrackEnd (n : Notice)
  | EmTrackException (n : Notice).

(** The registry [Nodes] is kept in its own-property order, the order in
    which [Object.values] lists it: keys that are array indices first, in
    ascending numeric order, then the other keys in the order of their
    first insertion.  [Players] and [sessionIds] are only ever read by
    key. *)
Record State : Type := mkState {
  Config : config;
  Nodes : list (string * Node);
  Players : gmap string PlayerState;
  sessionIds : gmap string string;
  requests : list Request;
  emitted : list Emitted
}.

(** ** JavaScript helpers *)

(** Truthiness of a string. *)
Definition truthy (s : string) : bool :=
  match s with EmptyString => false | _ => true end.

(** [Nodes[key]]. *)
Fixpoint lookupNode (key : string) (ns : list (string * Node)) : option Node :=
  match ns with
  | [] => None
  | (k, n) :: ns' => if String.eqb k key then Some n else lookupNode key ns'
  end.

(** The value of a decimal digit. *)
Definition digit (a : Ascii.ascii) : option N :=
  let c := Ascii.N_of_ascii a in
  if (N.leb 48 c && N.leb c 57)%bool then Some (c - 48)%N else None.

Fixpoint digits (s : string) (acc : N) : option N :=
  match s with
  | EmptyString => Some acc
  | String a s' =>
      match digit a with
      | Some d => digits s' (acc * 10 + d)%N
      | None => None
      end
  end.

(** The array index a property key stands for, if any: a decimal numeral
    without a leading zero, below [2^32 - 1]. *)
Definition arrayIndex (key : string) : option N :=
  match key with
  | EmptyString => None
  | String a rest =>
      if (N.eqb (Ascii.N_of_ascii a) 48 && negb (String.eqb rest ""))%bool
      then None
      else
        match digits key 0 with
        | Some i => if N.ltb i 4294967295 then Some i else None
        | None => None
        end
  end.

(** A new key [key] is listed before the existing key [k]. *)
Definition listedBefore (key k : string) : bool :=
  match arrayIndex key, arrayIndex k with
  | Some i, Some j => N.ltb i j
  | Some _, None => true
  | None, _ => false
  end.

(** [Nodes[key] = n] on an existing key: the entry keeps its place. *)
Fixpoint replaceNode (key : string) (n : Node) (ns : list (string * Node))
  : list (string * Node) :=
  match ns with
  | [] => []
  | (k, m) :: ns' =>
      if String.eqb k key then (k, n) :: ns'
      else (k, m) :: replaceNode key n ns'
  end.

(** [Nodes[key] = n] on a new key: an array index goes to its numeric
    place, any other key to the end. *)
Fixpoint insertNode (key : string) (n : Node) (ns : list (string * Node))
  : list (string * Node) :=
  match ns with
  | [] => [(key, n)]
  | (k, m) :: ns' =>
      if listedBefore key k then (key, n) :: (k, m) :: ns'
      else (k, m) :: insertNode key n ns'
  end.

(** [Nodes[key] = n]; the key [__proto__] is treated like any other. *)
Definition storeNode (key : string) (n : Node) (ns : list (string * Node))
  : list (string * Node) :=
  match lookupNode key ns with
  | Some _ => replaceNode key n ns
  | None => insertNode key n ns
  end.

(** The names every object inherits from [Object.prototype]: [table[key]]
    is a truthy value for them even when the table has no such entry. *)
Definition inherited (key : string) : bool :=
  bool_decide
    (key ∈ ["constructor"; "__proto__"; "hasOwnProperty"; "isPrototypeOf";
            "propertyIsEnumerable"; "toLocaleString"; "toString"; "valueOf";
            "__defineGetter__"; "__defineSetter__"; "__lookupGetter__";
            "__lookupSetter__"]).

(** [Object.values(Nodes)]: the entries' values, in the order the registry
    is kept in. *)
Definition Object_values (ns : list (string * Node)) : list Node := map snd ns.

(** A property key made from a possibly [undefined] value. *)
Definition propertyKey (o : option string) : string := default "undefined" o.

(** Template-literal rendering of a possibly [null] string. *)
Definition render (o : option string) : string := default "null" o.

(** ** Node selection *)

Module Selection.

(** [(stats.systemLoad / stats.cores) * 100] *)
Definition score (st : Stats) : float :=
  (systemLoad st / cores st * 100)%float.

(** The comparator handed to [sort]; reading [stats.systemLoad] of an entry
    without [stats] throws. *)
Definition compareFn (a b : Node) : result float :=
  match stats a with
  | None => Throw TypeError
  | Some sa =>
      match stats b with
      | None => Throw TypeError
      | Some sb => Ok (score sa - score sb)%float
      end
  end.

(** The test [sort] makes on a comparator result [v]: [v > 0]. *)
Definition isPositive (v : float) : bool := (0 <? v)%float.

(** [Array.prototype.sort] with a comparator: a stable sort that moves
    [a] behind [b] exactly when the comparator is positive on [(a, b)],
    and that lets a throw of the comparator through.  With two or more
    elements every element takes part in a comparison. *)
Fixpoint insertSorted {A} (cmp : A -> A -> result float) (x : A) (l : list A)
  : result (list A) :=
  match l with
  | [] => Ok [x]
  | y :: l' =>
      match cmp x y with
      | Throw e => Throw e
      | Ok v =>
          if isPositive v then
            match insertSorted cmp x l' with
            | Ok r => Ok (y :: r)
            | Throw e => Throw e
            end
          else Ok (x :: y :: l')
      end
  end.

Fixpoint sort {A} (cmp : A -> A -> result float) (l : list A)
  : result (list A) :=
  match l with
  | [] => Ok []
  | x :: l' =>
      match sort cmp l' with
      | Ok r => insertSorted cmp x r
      | Throw e => Throw e
      end
  end.

Definition connectedNodes (ns : list (string * Node)) : list Node :=
  List.filter connected (Object_values ns).

(** [anyNodeAvailable()] *)
Definition anyNodeAvailable (ns : list (string * Node)) : bool :=
  if Nat.eqb (length (connectedNodes ns)) 0 then false else true.

(** [getRecommendedNode()]; the result [None] is [undefined]. *)
Definition getRecommendedNode (ns : list (string * Node))
  : result (option Node) :=
  let nodes := connectedNodes ns in
  if Nat.eqb (length nodes) 0 then Throw (Error "No node connected.")
  else
    match sort compareFn nodes with
    | Ok sorted => Ok (head sorted)
    | Throw e => Throw e
    end.

End Selection.


(** ** The state-and-exception monad

    A thrown value leaves the mutations made before it in place. *)

Definition M (A : Type) : Type := State -> result A * State.

#[export] Instance M_ret : MRet M := fun A a s => (Ok a, s).

#[export] Instance M_bind : MBind M := fun A B f m s =>
  match m s with
  | (Ok a, s') => f a s'
  | (Throw e, s') => (Throw e, s')
  end.

Definition throw {A} (e : error) : M A := fun s => (Throw e, s).
Definition get : M State := fun s => (Ok s, s).
Definition put (s : State) : M unit := fun _ => (Ok tt, s).

(** A call whose promise is not awaited: a rejection is not seen by the
    caller, the effects of the synchronous part stay. *)
Definition notAwaited {A} (m : M A) : M unit := fun s => (Ok tt, snd (m s)).

(** The effects of a command, without its outcome. *)
Definition exec {A} (m : M A) (s : State) : State := snd (m s).

Definition setNodes (ns : list (string * Node)) (s : State) : State :=
  {| Config := Config s; Nodes := ns; Players := Players s;
     sessionIds := sessionIds s; requests := requests s;
     emitted := emitted s |}.

Definition setPlayers (ps : gmap string PlayerState) (s : State) : State :=
  {| Config := Config s; Nodes := Nodes s; Players := ps;
     sessionIds := sessionIds s; requests := requests s;
     emitted := emitted s |}.

Definition setSessionIds (ids : gmap string string) (s : State) : State :=
  {| Config := Config s; Nodes := Nodes s; Players := Players s;
     sessionIds := ids; requests := requests s; emitted := emitted s |}.

(** [utils.makeRequest(url, options)]: the request leaves the process. *)
Definition utils_makeRequest (r : Request) : M unit := fun s =>
  (Ok tt, {| Config := Config s; Nodes := Nodes s; Players := Players s;
             sessionIds := sessionIds s; requests := requests s ++ [r];
             emitted := emitted s |}).

(** [Event.emit(...)] *)
Definition emit (e : Emitted) : M unit := fun s =>
  (Ok tt, {| Config := Config s; Nodes := Nodes s; Players := Players s;
             sessionIds := sessionIds s; requests := requests s;
             emitted := emitted s ++ [e] |}).

(** Reading a property of [Nodes[key]]: a [TypeError] when the entry is
    [undefined]. *)
Definition nodeOf (key : option string) : M Node :=
  s ← get;
  match lookupNode (propertyKey key) (Nodes s) with
  | Some n => mret n
  | None => throw TypeError
  end.

(** Reading a property of [Players[g]]. *)
Definition playerOf (g : string) : M PlayerState :=
  s ← get;
  match Players s !! g with
  | Some p => mret p
  | None => throw TypeError
  end.

(** Calling a method of [Players[g].queue]. *)
Definition queueOf (g : string) : M (list string) :=
  p ← playerOf g;
  match pl_queue p with
  | Some q => mret q
  | None => throw TypeError
  end.

(** [Players[g].<property> = ...] *)
Definition assignPlayer (g : string) (f : PlayerState -> PlayerState) : M unit :=
  p ← playerOf g;
  s ← get;
  put (setPlayers (<[g := f p]> (Players s)) s).

Definition withQueue (q : list string) (p : PlayerState) : PlayerState :=
  {| pl_connected := pl_connected p; pl_playing := pl_playing p;
     pl_paused := pl_paused p; pl_volume := pl_volume p; pl_node := pl_node p;
     pl_queue := Some q; pl_track := pl_track p |}.

Definition withTrack (t : option string) (p : PlayerState) : PlayerState :=
  {| pl_connected := pl_connected p; pl_playing := pl_playing p;
     pl_paused := pl_paused p; pl_volume := pl_volume p; pl_node := pl_node p;
     pl_queue := pl_queue p; pl_track := Some t |}.

Definition withPaused (b : bool) (p : PlayerState) : PlayerState :=
  {| pl_connected := pl_connected p; pl_playing := negb b;
     pl_paused := b; pl_volume := pl_volume p; pl_node := pl_node p;
     pl_queue := pl_queue p; pl_track := pl_track p |}.

(** [player.playing = false; player.volume = null] *)
Definition stopped (p : PlayerState) : PlayerState :=
  {| pl_connected := pl_connected p; pl_playing := false;
     pl_paused := pl_paused p; pl_volume := None; pl_node := pl_node p;
     pl_queue := pl_queue p; pl_track := pl_track p |}.

(** [http${n.secure ? 's' : ''}://${n.hostname}] *)
Definition origin (n : Node) : string :=
  "http" +:+ (if secure n then "s" else "") +:+ "://" +:+ hostname n.

(** [/sessions/${sessionId}/players/${guildId}] *)
Definition playerPath (n : Node) (g : string) : string :=
  "/sessions/" +:+ render (sessionId n) +:+ "/players/" +:+ g.

(** [{ encodedTrack: t }], where [t] may be [undefined]. *)
Definition trackBody (t : option string) : Body :=
  {| encodedTrack := Some <$> t; encodedTracks := None; b_paused := None;
     b_volume := None; voice := None |}.

(** ** The [Player] class *)

(** A [Player] object: [this.guildId] and [this.node] ([None] while
    [undefined]). *)
Record Player : Type := mkPlayer {
  this_guildId : string;
  this_node : option string
}.

(** [new Player(guildId)] *)
Definition newPlayer (g : string) : M Player :=
  if negb (truthy g) then throw (Error "No guildId provided.")
  else
    s ← get;
    mret {| this_guildId := g; this_node := pl_node <$> (Players s !! g) |}.

(** The request [this.makeRequest(path, options)] builds for node [n]. *)
Definition requestTo (n : Node) (path : string) (b : option Body)
    (m : Method) : Request :=
  {| url := origin n +:+ "/v4" +:+ path; authorization := Some (password n);
     body := b; rq_port := Some (port n); method := m |}.

(** [this.makeRequest(path, options)] *)
Definition makeRequest (this : Player) (path : string) (b : option Body)
    (m : Method) : M unit :=
  n ← nodeOf (this_node this);
  utils_makeRequest (requestTo n path b m).

(** [createPlayer()]; the updated object is returned in place of the
    assignment to [this.node].  The test [if (Players[this.guildId])] also
    succeeds on a name inherited from [Object.prototype]. *)
Definition createPlayer (this : Player) : M Player :=
  s ← get;
  match Players s !! this_guildId this with
  | Some _ =>
      throw (Error
        "Player already exists. Use playerCreated() to check if a player exists.")
  | None =>
      if inherited (this_guildId this) then
        throw (Error
          "Player already exists. Use playerCreated() to check if a player exists.")
      else
      match Selection.getRecommendedNode (Nodes s) with
      | Throw e => throw e
      | Ok None => throw TypeError
      | Ok (Some n) =>
          let node := hostname n in
          let fresh :=
            {| pl_connected := false; pl_playing := false; pl_paused := false;
               pl_volume := None; pl_node := node;
               pl_queue := None; pl_track := None |} in
          _ ← put (setPlayers (<[this_guildId this := fresh]> (Players s)) s);
          _ ← (if queue (Config s)
               then assignPlayer (this_guildId this) (withQueue [])
               else assignPlayer (this_guildId this) (withTrack None));
          mret {| this_guildId := this_guildId this; this_node := Some node |}
      end
  end.

(** [playerCreated()], with [this.guildId] the id of a guild. *)
Definition playerCreated (this : Player) : M bool :=
  s ← get;
  mret (match Players s !! this_guildId this with
        | Some _ => true
        | None => false
        end).

(** The part of [update] that handles [body.encodedTrack]; the result
    [true] stands for the early [return]. *)
Definition update_encodedTrack (this : Player) (b : Body) : M bool :=
  s ← get;
  match encodedTrack b with
  | Some (Some t) =>
      if truthy t && queue (Config s) then
        q ← queueOf (this_guildId this);
        _ ← assignPlayer (this_guildId this) (withQueue (q ++ [t]));
        mret (negb (Nat.eqb (length (q ++ [t])) 1))
      else
        _ ← assignPlayer (this_guildId this) (withQueue []);
        mret false
  | Some None =>
      _ ← assignPlayer (this_guildId this) (withQueue []);
      mret false
  | None => mret false
  end.

(** [noReplace !== true ? false : true], as rendered in the query. *)
Definition noReplaceFlag (noReplace : option bool) : string :=
  match noReplace with
  | Some true => "true"
  | _ => "false"
  end.

(** [update(body, noReplace)]; the data of the response is not modelled.
    A queue is modelled by the tracks it holds: the batch branch stores the
    caller's array itself, and what a caller does to that array afterwards,
    or a second player given the same array, is outside the model. *)
Definition update (this : Player) (b : Body) (noReplace : option bool)
  : M unit :=
  done ← update_encodedTrack this b;
  if (done : bool) then mret tt
  else
    match encodedTracks b with
    | Some ts =>
        s ← get;
        if negb (queue (Config s)) then
          throw (Error "Queue is disabled. (Config.queue = false)")
        else
          q ← queueOf (this_guildId this);
          if Nat.eqb (length q) 0 then
            _ ← assignPlayer (this_guildId this) (withQueue ts);
            n ← nodeOf (this_node this);
            notAwaited
              (makeRequest this (playerPath n (this_guildId this))
                 (Some (trackBody (head ts))) PATCH)
          else
            assignPlayer (this_guildId this) (withQueue (q ++ ts))
    | None =>
        _ ← match b_paused b with
            | Some pa => assignPlayer (this_guildId this) (withPaused pa)
            | None => mret tt
            end;
        n ← nodeOf (this_node this);
        makeRequest this
          (playerPath n (this_guildId this) +:+ "?noReplace="
             +:+ noReplaceFlag noReplace)
          (Some b) PATCH
    end.

(** [destroy()] *)
Definition destroy (this : Player) : M unit :=
  n ← nodeOf (this_node this);
  match nd_players n with
  | None => throw TypeError
  | Some slots =>
      s ← get;
      let n' :=
        {| hostname := hostname n; password := password n; secure := secure n;
           port := port n; connected := connected n; sessionId := sessionId n;
           stats := stats n;
           nd_players := Some (<[this_guildId this := None]> slots) |} in
      _ ← put (setNodes (storeNode (propertyKey (this_node this)) n' (Nodes s)) s);
      n ← nodeOf (this_node this);
      notAwaited
        (makeRequest this (playerPath n (this_guildId this)) None DELETE)
  end.

(** [getQueue()] *)
Definition getQueue (this : Player) : M (option (list string)) :=
  s ← get;
  if negb (queue (Config s)) then
    throw (Error "Queue is disabled. (Config.queue = false)")
  else
    p ← playerOf (this_guildId this);
    mret (pl_queue p).

(** The object returned by [skipTrack]. *)
Record SkipResult : Type := mkSkipResult {
  skipped : bool;
  sk_queue : list string;
  sk_error : option string
}.

(** [skipTrack()] *)
Definition skipTrack (this : Player) : M SkipResult :=
  s ← get;
  if negb (queue (Config s)) then
    throw (Error "Queue is disabled. (Config.queue = false)")
  else
    q ← queueOf (this_guildId this);
    if Nat.ltb (length q) 1 then
      mret {| skipped := false; sk_queue := [];
              sk_error := Some "No tracks in queue." |}
    else
      _ ← assignPlayer (this_guildId this) (withQueue (tail q));
      n ← nodeOf (this_node this);
      q' ← queueOf (this_guildId this);
      _ ← notAwaited
            (makeRequest this (playerPath n (this_guildId this))
               (Some (trackBody (head q'))) PATCH);
      q'' ← queueOf (this_guildId this);
      mret {| skipped := true; sk_queue := q''; sk_error := None |}.

(** ** Track-end and track-exception handlers *)

(** What a handler returns: the [Players] table, or [undefined]. *)
Inductive Returned : Type := ReturnedPlayers | ReturnedUndefined.

(** [payload.reason != 'replaced'] *)
Definition notReplaced (r : option string) : bool :=
  match r with
  | Some x => negb (String.eqb x "replaced")
  | None => true
  end.

(** The PATCH of the new queue head, as [trackEnd] spells it out. *)
Definition advanceRequest (n : Node) (g : string) (t : option string)
  : Request :=
  {| url := origin n +:+ "/v4" +:+ playerPath n g;
     authorization := Some (password n);
     body := Some (trackBody t);
     rq_port := Some (port n);
     method := PATCH |}.

(** Modelled from the spec: [utils.makeNodeRequest(Nodes, node, path,
    options)] lives in [src/utils.js], which is not part of the sources
    at hand.  Both handlers "issue a REST patch setting [the new head] as
    the node's current track": the helper addresses [path] on the node's
    origin with the node's credentials, as [utils.makeRequest] is called
    in [trackEnd]. *)
Definition utils_makeNodeRequest (n : Node) (path : string) (b : option Body)
    (m : Method) : M unit :=
  utils_makeRequest
    {| url := origin n +:+ path; authorization := Some (password n);
       body := b; rq_port := Some (port n); method := m |}.

Definition notice (s : State) (node : string) (payload : Payload)
    (p : PlayerState) : Notice :=
  {| n_node := lookupNode node (Nodes s); n_guildId := guildId payload;
     n_player := p; n_track := track payload |}.

(** [trackEnd(Event, payload, node, config, Nodes, Players)] *)
Definition trackEnd (payload : Payload) (node : string) : M Returned :=
  s ← get;
  match Players s !! guildId payload with
  | None => mret ReturnedUndefined
  | Some _ =>
      advanced ←
        (if queue (Config s) && notReplaced (reason payload) then
           q ← queueOf (guildId payload);
           _ ← assignPlayer (guildId payload) (withQueue (tail q));
           q' ← queueOf (guildId payload);
           if Nat.ltb 0 (length q') then
             n ← nodeOf (Some node);
             _ ← utils_makeRequest (advanceRequest n (guildId payload) (head q'));
             mret true
           else mret false
         else
           _ ← assignPlayer (guildId payload) (withTrack None);
           mret false);
      if (advanced : bool) then mret ReturnedPlayers
      else
        _ ← assignPlayer (guildId payload) stopped;
        p ← playerOf (guildId payload);
        s' ← get;
        _ ← emit (EmTrackEnd (notice s' node payload p));
        mret ReturnedPlayers
  end.

(** [trackException(Event, payload, node, config, Nodes, Players)] *)
Definition trackException (payload : Payload) (node : string) : M Returned :=
  _ ← emit (EmDebug ("[FastLink] " +:+ node +:+ " has received a track exception"));
  s ← get;
  match Players s !! guildId payload with
  | None => mret ReturnedUndefined
  | Some _ =>
      advanced ←
        (if queue (Config s) then
           q ← queueOf (guildId payload);
           _ ← assignPlayer (guildId payload) (withQueue (tail q));
           q' ← queueOf (guildId payload);
           if Nat.ltb 0 (length q') then
             n ← nodeOf (Some node);
             _ ← utils_makeNodeRequest n ("/v4" +:+ playerPath n (guildId payload))
                   (Some (trackBody (head q'))) PATCH;
             mret true
           else mret false
         else
           _ ← assignPlayer (guildId payload) (withTrack None);
           mret false);
      if (advanced : bool) then mret ReturnedPlayers
      else
        _ ← assignPlayer (guildId payload) stopped;
        p ← playerOf (guildId payload);
        s' ← get;
        _ ← emit (EmTrackException (notice s' node payload p));
        mret ReturnedPlayers
  end.

(** ** Voice correlation *)

(** The gateway payloads [handleRaw] looks at: [data.t] and the members of
    [data.d] it reads. *)
Inductive RawData : Type :=
  | VOICE_SERVER_UPDATE (guild_id tok endp : string)
  | VOICE_STATE_UPDATE (guild_id session_id member_user_id : string)
  | OtherDispatch (t : string).

(** [handleRaw(data)] *)
Definition handleRaw (data : RawData) : M unit :=
  match data with
  | VOICE_SERVER_UPDATE g tok endp =>
      s ← get;
      match sessionIds s !! g with
      | None => mret tt
      | Some sid =>
          if negb (truthy sid) then mret tt
          else
            player ← newPlayer g;
            created ← playerCreated player;
            if negb created then mret tt
            else
              _ ← notAwaited
                    (update player
                       {| encodedTrack := None; encodedTracks := None;
                          b_paused := None; b_volume := None;
                          voice := Some {| token := tok; endpoint := endp;
                                           v_sessionId := sid |} |}
                       None);
              s' ← get;
              put (setSessionIds (delete g (sessionIds s')) s')
      end
  | VOICE_STATE_UPDATE g sid uid =>
      s ← get;
      if String.eqb uid (botId (Config s))
      then put (setSessionIds (<[g := sid]> (sessionIds s)) s)
      else mret tt
  | OtherDispatch _ => mret tt
  end.

(** ** Voice join *)





(** [loadCaptions(track, lang)]; [lang] is [None] when [undefined]. *)
Definition loadCaptions (this : Player) (track : string) (lang : option string)
  : M unit :=
  if negb (truthy track) then throw (Error "No track provided.")
  else
    makeRequest this
      ("/loadcaptions?encodedTrack=" +:+ track +:+
         match lang with
         | Some l => if truthy l then "&language=" +:+ l else ""
         | None => ""
         end)
      None GET.

(** ** Node queries

    [getPlayers], [getInfo], [getStats], [getVersion],
    [getRouterPlannerStatus] and [unmarkAllFailedAddresses] share one shape:
    check the argument, look the node up, send one GET.  [endpoint] is the
    path, given the text [${Nodes[node].sessionId}].  The guard
    [if (!Nodes[node])] lets a name inherited from [Object.prototype]
    through; the properties then read ([secure], [hostname], [password],
    [port], [sessionId]) are all [undefined]. *)

Definition nodeGet (endpoint : string -> string) (node : string) : M unit :=
  if negb (truthy node) then throw (Error "No node provided.")
  else
    s ← get;
    match lookupNode node (Nodes s) with
    | Some n =>
        utils_makeRequest
          {| url := origin n +:+ endpoint (render (sessionId n));
             authorization := Some (password n);
             body := None; rq_port := Some (port n); method := GET |}
    | None =>
        if inherited node then
          utils_makeRequest
            {| url := "http://undefined" +:+ endpoint "undefined";
               authorization := None; body := None; rq_port := None;
               method := GET |}
        else throw (Error "Node does not exist.")
    end.

Definition getPlayers : string -> M unit :=
  nodeGet (fun sid => "/v4/sessions/" +:+ sid +:+ "/players").

Definition getInfo : string -> M unit := nodeGet (fun _ => "/v4/info").

Definition getStats : string -> M unit := nodeGet (fun _ => "/v4/stats").

Definition getVersion : string -> M unit := nodeGet (fun _ => "/version").

Definition getRouterPlannerStatus : string -> M unit :=
  nodeGet (fun _ => "/v4/routerplanner/status").

Definition unmarkAllFailedAddresses : string -> M unit :=
  nodeGet (fun _ => "/v4/routeplanner/free/all").

(** ** Registration *)

Definition setConfig (c : config) (s : State) : State :=
  {| Config := c; Nodes := Nodes s; Players := Players s;
     sessionIds := sessionIds s; requests := requests s;
     emitted := emitted s |}.

(** The table entry [{ ...node, connected: false, sessionId: null }], after
    [if (!node.port) node.port = 2333].  The node object is given with the
    type of an entry: the spread copies whatever further properties it
    carries, and a port that is not given is the falsy port [0]. *)
Definition registered (node : Node) : Node :=
  {| hostname := hostname node; password := password node;
     secure := secure node;
     port := if Z.eqb (port node) 0 then 2333%Z else port node;
     connected := false; sessionId := None;
     stats := stats node; nd_players := nd_players node |}.

(** One round of the [nodes.forEach] of [connectNodes], as far as the
    tables go: the socket it opens and the handlers it installs act later,
    through the event handlers. *)
Definition registerNode (node : Node) : M unit :=
  if negb (truthy (hostname node)) then throw (Error "No hostname provided.")
  else if negb (truthy (password node)) then
    throw (Error "No password provided.")
  else
    s ← get;
    put (setNodes (storeNode (hostname node) (registered node) (Nodes s)) s).

Fixpoint forEach {A} (f : A -> M unit) (l : list A) : M unit :=
  match l with
  | [] => mret tt
  | x :: l' => _ ← f x; forEach f l'
  end.

(** [connectNodes(nodes, config)] *)
Definition connectNodes (nodes : list Node) (c : config) : M unit :=
  if negb (truthy (botId c)) then throw (Error "No botId provided.")
  else if Z.eqb (shards c) 0 then throw (Error "No shards provided.")
  else
    s ← get;
    _ ← put (setConfig
               {| botId := botId c; shards := shards c;
                  queue := queue c || false; debug := debug c || false |} s);
    forEach registerNode nodes.

(** ** Sequences of calls

    What the consumer and the dispatcher can do to the tables, one call
    after the other; a call that throws leaves its effects behind and the
    next call runs all the same. *)

Inductive Call : Type :=
  | CallCreatePlayer (this : Player)
  | CallUpdate (this : Player) (b : Body) (noReplace : option bool)
  | CallDestroy (this : Player)
  | CallSkipTrack (this : Player)
  | CallGetQueue (this : Player)
  | CallLoadCaptions (this : Player) (track : string) (lang : option string)
  | CallNodeGet (endpoint : string -> string) (node : string)
  | CallTrackEnd (payload : Payload) (node : string)
  | CallTrackException (payload : Payload) (node : string)
  | CallHandleRaw (data : RawData).

Definition perform (c : Call) (s : State) : State :=
  match c with
  | CallCreatePlayer this => exec (createPlayer this) s
  | CallUpdate this b noReplace => exec (update this b noReplace) s
  | CallDestroy this => exec (destroy this) s
  | CallSkipTrack this => exec (skipTrack this) s
  | CallGetQueue this => exec (getQueue this) s
  | CallLoadCaptions this track lang => exec (loadCaptions this track lang) s
  | CallNodeGet endpoint node => exec (nodeGet endpoint node) s
  | CallTrackEnd payload node => exec (trackEnd payload node) s
  | CallTrackException payload node => exec (trackException payload node) s
  | CallHandleRaw data => exec (handleRaw data) s
  end.

Definition performAll (cs : list Call) (s : State) : State :=
  foldl (fun s c => perform c s) s cs.

(** The guild a call is about, if any. *)
Definition guildOf (c : Call) : option string :=
  match c with
  | CallCreatePlayer this | CallUpdate this _ _ | CallDestroy this
  | CallSkipTrack this | CallGetQueue this | CallLoadCaptions this _ _ =>
      Some (this_guildId this)
  | CallNodeGet _ _ => None
  | CallTrackEnd payload _ | CallTrackException payload _ =>
      Some (guildId payload)
  | CallHandleRaw (VOICE_SERVER_UPDATE g _ _)
  | CallHandleRaw (VOICE_STATE_UPDATE g _ _) => Some g
  | CallHandleRaw (OtherDispatch _) => None
  end.

(** [s'] still has every player of [s], on the same node and with a queue
    if it had one, and the same configuration. *)
Definition keepsPlayers (s s' : State) : Prop :=
  Config s' = Config s
  /\ forall g p, Players s !! g = Some p ->
       exists p', Players s' !! g = Some p'
         /\ pl_node p' = pl_node p
         /\ (is_Some (pl_queue p) -> is_Some (pl_queue p')).

(** A field update that keeps the node of a player, and its queue if it
    has one. *)
Definition gentle (f : PlayerState -> PlayerState) : Prop :=
  forall p, pl_node (f p) = pl_node p
            /\ (is_Some (pl_queue p) -> is_Some (pl_queue (f p))).

(** The part of a table entry that selection and addressing read: all of
    it but the slot table. *)
Definition core (n : Node) : Node :=
  {| hostname := hostname n; password := password n; secure := secure n;
     port := port n; connected := connected n; sessionId := sessionId n;
     stats := stats n; nd_players := None |}.

(** [s'] has the registry of [s], up to the slot tables. *)
Definition sameRegistry (s s' : State) : Prop :=
  map (fun kn => (fst kn, core (snd kn))) (Nodes s')
  = map (fun kn => (fst kn, core (snd kn))) (Nodes s).

(** The outcome of a selection, up to the slot table of the node. *)
Definition upToSlots (r : result (option Node)) : result (option Node) :=
  match r with
  | Ok o => Ok (core <$> o)
  | Throw e => Throw e
  end.

(** The state after one more request. *)
Definition sent (r : Request) (s : State) : State :=
  {| Config := Config s; Nodes := Nodes s; Players := Players s;
     sessionIds := sessionIds s; requests := requests s ++ [r];
     emitted := emitted s |}.

(** The state after one more emitted event. *)
Definition told (e : Emitted) (s : State) : State :=
  {| Config := Config s; Nodes := Nodes s; Players := Players s;
     sessionIds := sessionIds s; requests := requests s;
     emitted := emitted s ++ [e] |}.

(** A node object that passes the checks of [connectNodes]. *)
Definition validNode (n : Node) : Prop :=
  truthy (hostname n) = true /\ truthy (password n) = true.


(** No entry of the registry is connected. *)
Definition allDisconnected (s : State) : Prop :=
  forall m, m ∈ Object_values (Nodes s) -> connected m = false.

(** Running [m] from [s] ends in a state related to [s] by [R]. *)
Definition preservesAt {A} (R : State -> State -> Prop) (s : State) (m : M A)
  : Prop :=
  R s (exec m s).

Definition preserves {A} (R : State -> State -> Prop) (m : M A) : Prop :=
  forall s, preservesAt R s m.

(** ** Sample configurations

    Three nodes registered in the order [c], [a], [b]: [c] is idle but not
    connected, [a] and [b] are connected and score the same. *)

Module Sample.

Definition nodeA : Node :=
  {| hostname := "a.example"; password := "pw-a"; secure := false;
     port := 2333%Z; connected := true; sessionId := Some "sess-a";
     stats := Some {| systemLoad := 0.5; cores := 4 |};
     nd_players := Some ∅ |}.

Definition nodeB : Node :=
  {| hostname := "b.example"; password := "pw-b"; secure := true;
     port := 443%Z; connected := true; sessionId := Some "sess-b";
     stats := Some {| systemLoad := 0.25; cores := 2 |};
     nd_players := Some ∅ |}.

Definition nodeC : Node :=
  {| hostname := "c.example"; password := "pw-c"; secure := false;
     port := 2333%Z; connected := false; sessionId := None;
     stats := Some {| systemLoad := 0; cores := 8 |};
     nd_players := Some ∅ |}.


(** A node that has connected but not yet reported its load. *)
Definition nodeD : Node :=
  {| hostname := "d.example"; password := "pw-d"; secure := false;
     port := 2333%Z; connected := true; sessionId := Some "sess-d";
     stats := None; nd_players := Some ∅ |}.

(** A node with half the load per core of [a] and [b]. *)
Definition nodeE : Node :=
  {| hostname := "e.example"; password := "pw-e"; secure := false;
     port := 2333%Z; connected := true; sessionId := Some "sess-e";
     stats := Some {| systemLoad := 0.25; cores := 4 |};
     nd_players := Some ∅ |}.

Definition registry : list (string * Node) :=
  [("c.example", nodeC); ("a.example", nodeA); ("b.example", nodeB)].

(** A registry whose least loaded node is not listed first. *)
Definition uneven : list (string * Node) :=
  [("a.example", nodeA); ("c.example", nodeC); ("e.example", nodeE);
   ("b.example", nodeB)].

Definition settings (queueing : bool) : config :=
  {| botId := "bot"; shards := 1%Z; queue := queueing; debug := false |}.

(** Right after [connectNodes], once [a] and [b] have reported in. *)
Definition initial (queueing : bool) : State :=
  {| Config := settings queueing; Nodes := registry; Players := ∅;
     sessionIds := ∅; requests := []; emitted := [] |}.

(** A player for guild ["g"] on node [a], in queue mode, with local queue
    [q]. *)
Definition queued (q : list string) : PlayerState :=
  {| pl_connected := true; pl_playing := true; pl_paused := false;
     pl_volume := Some 100%Z; pl_node := "a.example";
     pl_queue := Some q; pl_track := None |}.

(** A player for guild ["g"] on node [a], in single-track mode, playing
    track ["A"]. *)
Definition single : PlayerState :=
  {| pl_connected := true; pl_playing := true; pl_paused := false;
     pl_volume := Some 100%Z; pl_node := "a.example";
     pl_queue := None; pl_track := Some (Some "A") |}.

Definition withSingle : State :=
  {| Config := settings false; Nodes := registry;
     Players := {[ "g" := single ]};
     sessionIds := ∅; requests := []; emitted := [] |}.

Definition withQueued (q : list string) : State :=
  {| Config := settings true; Nodes := registry;
     Players := {[ "g" := queued q ]};
     sessionIds := ∅; requests := []; emitted := [] |}.

Definition ended (why : string) : Payload :=
  {| guildId := "g"; reason := Some why; track := "A" |}.

End Sample.

(** * Properties *)

(** ** Node selection *)

Module SelectionFacts.
Import Selection.


Lemma elem_of_filter_bool {A} (f : A -> bool) (l : list A) (x : A) :
  x ∈ List.filter f l <-> x ∈ l /\ f x = true.
Proof. rewrite !list_elem_of_In. apply List.filter_In. Qed.


(** Sorting never fails with anything but a [TypeError] and keeps the
    length. *)
Lemma insertSorted_length (x : Node) (l r : list Node) :
  insertSorted compareFn x l = Ok r -> length r = S (length l).
Proof.
  revert r. induction l as [| y l IH]; intros r; simpl.
  - intros [= <-]. reflexivity.
  - destruct (compareFn x y) as [v | e]; [| discriminate].
    destruct (isPositive v).
    + destruct (insertSorted compareFn x l) as [r' | e]; [| discriminate].
      intros [= <-]. simpl. rewrite (IH r' eq_refl). reflexivity.
    + intros [= <-]. reflexivity.
Qed.

Lemma sort_length (l r : list Node) :
  sort compareFn l = Ok r -> length r = length l.
Proof.
  revert r. induction l as [| x l IH]; intros r; simpl.
  - intros [= <-]. reflexivity.
  - destruct (sort compareFn l) as [r' | e]; [| discriminate].
    intros H. apply insertSorted_length in H. rewrite H, (IH r' eq_refl).
    reflexivity.
Qed.

Lemma insertSorted_throws (x : Node) (l : list Node) (e : error) :
  insertSorted compareFn x l = Throw e -> e = TypeError.
Proof.
  induction l as [| y l IH]; simpl; [discriminate |].
  unfold compareFn at 1.
  destruct (stats x); [| intros [= <-]; reflexivity].
  destruct (stats y); [| intros [= <-]; reflexivity].
  destruct (isPositive _); [| discriminate].
  destruct (insertSorted compareFn x l) as [r' | e']; [discriminate |].
  intros [= <-]. apply IH. reflexivity.
Qed.

Lemma sort_throws (l : list Node) (e : error) :
  sort compareFn l = Throw e -> e = TypeError.
Proof.
  induction l as [| x l IH]; simpl; [discriminate |].
  destruct (sort compareFn l) as [r' | e'].
  - apply insertSorted_throws.
  - intros [= <-]. apply IH. reflexivity.
Qed.

(** Inserting an entry with statistics among entries with statistics. *)
Lemma insertSorted_head (x : Node) (sx : Stats) (r : list Node) :
  stats x = Some sx ->
  (forall m, m ∈ r -> is_Some (stats m)) ->
  exists r',
    insertSorted compareFn x r = Ok r'
    /\ (forall m, m ∈ r' -> m = x \/ m ∈ r)
    /\ head r' =
         match head r with
         | None => Some x
         | Some y =>
             match stats y with
             | Some sy =>
                 if isPositive (score sx - score sy)%float then Some y
                 else Some x
             | None => None
             end
         end.
Proof.
  intros Hx. induction r as [| y r IH]; intros Hr; simpl.
  - exists [x]. split; [reflexivity |]. split; [| reflexivity].
    intros m Hm. apply list_elem_of_singleton in Hm. auto.
  - destruct (Hr y) as [sy Hy]; [left |].
    unfold compareFn at 1. rewrite Hx, Hy.
    destruct (isPositive (score sx - score sy)%float).
    + destruct IH as (r' & -> & Hin & _);
        [intros m Hm; apply Hr; right; exact Hm |].
      exists (y :: r'). split; [reflexivity |]. split; [| reflexivity].
      intros m Hm. apply elem_of_cons in Hm as [-> | Hm].
      * right. left.
      * destruct (Hin m Hm) as [-> | Hm']; [auto |]. right. right. exact Hm'.
    + exists (x :: y :: r). split; [reflexivity |]. split; [| reflexivity].
      intros m Hm. apply elem_of_cons in Hm as [-> | Hm]; auto.
Qed.


End SelectionFacts.




(** On the sample registry the tie between [a] and [b] goes to [a], the
    one listed first; among [a], [e] and [b] the least loaded [e] is
    returned, though listed after [a]. *)
Example getRecommendedNode_tie :
  Selection.getRecommendedNode Sample.registry = Ok (Some Sample.nodeA)
  /\ Selection.getRecommendedNode Sample.uneven = Ok (Some Sample.nodeE).
Proof. split; reflexivity. Qed.
(** ** Symbolic execution *)

Ltac red_M :=
  cbv beta iota zeta delta
    [mbind M_bind mret M_ret get put throw emit utils_makeRequest
     utils_makeNodeRequest notAwaited exec assignPlayer playerOf queueOf
     nodeOf makeRequest trackEnd trackException update update_encodedTrack
     skipTrack destroy createPlayer newPlayer playerCreated handleRaw getQueue
     fst snd andb negb propertyKey from_option id
     Players Nodes Config sessionIds requests emitted setPlayers setNodes
     setSessionIds pl_queue pl_track pl_playing pl_volume pl_node pl_paused
     pl_connected withQueue withTrack stopped withPaused
     queue botId guildId reason track this_guildId this_node
     encodedTrack encodedTracks b_paused b_volume voice trackBody notice
     fmap option_fmap option_map].

(** Run the monadic code as far as the known look-ups allow. *)
Tactic Notation "run" :=
  repeat (progress (red_M; rewrite ?lookup_insert_eq)).
Tactic Notation "run" "with" constr(H) :=
  repeat (progress (red_M; rewrite ?H, ?lookup_insert_eq)).

(** Run the code, using every look-up recorded among the hypotheses. *)
Ltac run_hyps :=
  repeat (progress
    (red_M; cbn [app length Nat.eqb Nat.ltb Nat.leb head tail];
     rewrite ?lookup_insert_eq;
     repeat match goal with
            | H : ?l = _ |- context [?l] => rewrite H
            end)).

Lemma notReplaced_false (r : option string) :
  notReplaced r = false <-> r = Some "replaced".
Proof.
  destruct r as [x |]; simpl; [| split; discriminate].
  rewrite negb_false_iff, String.eqb_eq. split; congruence.
Qed.


(** ** Request addresses *)

Lemma append_assoc (s1 s2 s3 : string) :
  (s1 +:+ s2) +:+ s3 = s1 +:+ (s2 +:+ s3).
Proof.
  induction s1 as [| a s1 IH]; [reflexivity |].
  change (String a ((s1 +:+ s2) +:+ s3) = String a (s1 +:+ (s2 +:+ s3))).
  f_equal. exact IH.
Qed.

(** The request [this.makeRequest] builds for a path under the player of
    guild [g], spelled out. *)
Lemma requestTo_player (n : Node) (g suffix : string) (b : option Body)
    (m : Method) :
  requestTo n (playerPath n g +:+ suffix) b m
  = {| url := ("http" +:+ (if secure n then "s" else "") +:+ "://"
               +:+ hostname n +:+ "/v4/sessions/"
               +:+ default "null" (sessionId n) +:+ "/players/" +:+ g)
              +:+ suffix;
       authorization := Some (password n); body := b;
       rq_port := Some (port n); method := m |}.
Proof.
  unfold requestTo, origin, playerPath, render. f_equal.
  destruct (secure n); simpl; rewrite ?append_assoc; simpl;
    rewrite ?append_assoc; reflexivity.
Qed.

Lemma append_empty (s : string) : s +:+ "" = s.
Proof.
  induction s as [| a s IH]; [reflexivity |].
  change (String a (s +:+ "") = String a s). f_equal. exact IH.
Qed.

Lemma requestTo_player_plain (n : Node) (g : string) (b : option Body)
    (m : Method) :
  requestTo n (playerPath n g) b m
  = {| url := "http" +:+ (if secure n then "s" else "") +:+ "://"
              +:+ hostname n +:+ "/v4/sessions/"
              +:+ default "null" (sessionId n) +:+ "/players/" +:+ g;
       authorization := Some (password n); body := b;
       rq_port := Some (port n); method := m |}.
Proof.
  rewrite <- (append_empty (playerPath n g)) at 1.
  rewrite requestTo_player, append_empty. reflexivity.
Qed.

Lemma advanceRequest_plain (n : Node) (g : string) (t : option string) :
  advanceRequest n g t
  = {| url := "http" +:+ (if secure n then "s" else "") +:+ "://"
              +:+ hostname n +:+ "/v4/sessions/"
              +:+ default "null" (sessionId n) +:+ "/players/" +:+ g;
       authorization := Some (password n);
       body := Some {| encodedTrack := Some <$> t; encodedTracks := None;
                       b_paused := None; b_volume := None; voice := None |};
       rq_port := Some (port n); method := PATCH |}.
Proof. apply (requestTo_player_plain n g (Some (trackBody t)) PATCH). Qed.

(** ** The registry as a table *)

Lemma lookupNode_replaceNode k n m ns :
  lookupNode k ns = Some m -> lookupNode k (replaceNode k n ns) = Some n.
Proof.
  induction ns as [| [k0 m0] ns IH]; simpl; [discriminate |].
  destruct (String.eqb k0 k) eqn:E; simpl; rewrite E; auto.
Qed.

Lemma lookupNode_replaceNode_ne k k' n ns :
  k' <> k -> lookupNode k' (replaceNode k n ns) = lookupNode k' ns.
Proof.
  intros Hne. induction ns as [| [k0 m0] ns IH]; simpl; [reflexivity |].
  destruct (String.eqb k0 k) eqn:E; simpl.
  - apply String.eqb_eq in E. subst k0.
    destruct (String.eqb k k') eqn:E'; [| reflexivity].
    apply String.eqb_eq in E'. congruence.
  - rewrite IH. reflexivity.
Qed.

Lemma lookupNode_insertNode k n ns :
  lookupNode k ns = None -> lookupNode k (insertNode k n ns) = Some n.
Proof.
  induction ns as [| [k0 m0] ns IH]; simpl.
  - rewrite String.eqb_refl. reflexivity.
  - destruct (String.eqb k0 k) eqn:E; [discriminate |]. intros H.
    destruct (listedBefore k k0); simpl.
    + rewrite String.eqb_refl. reflexivity.
    + rewrite E. auto.
Qed.

Lemma lookupNode_insertNode_ne k k' n ns :
  k' <> k -> lookupNode k' (insertNode k n ns) = lookupNode k' ns.
Proof.
  intros Hne.
  assert (String.eqb k k' = false) as E
    by (apply String.eqb_neq; congruence).
  induction ns as [| [k0 m0] ns IH]; simpl.
  - rewrite E. reflexivity.
  - destruct (listedBefore k k0); simpl.
    + rewrite E. reflexivity.
    + rewrite IH. reflexivity.
Qed.

Lemma lookupNode_storeNode k n ns : lookupNode k (storeNode k n ns) = Some n.
Proof.
  unfold storeNode. destruct (lookupNode k ns) as [m |] eqn:E.
  - apply (lookupNode_replaceNode k n m ns E).
  - apply lookupNode_insertNode, E.
Qed.

Lemma lookupNode_storeNode_ne k k' n ns :
  k' <> k -> lookupNode k' (storeNode k n ns) = lookupNode k' ns.
Proof.
  intros Hne. unfold storeNode. destruct (lookupNode k ns).
  - apply lookupNode_replaceNode_ne, Hne.
  - apply lookupNode_insertNode_ne, Hne.
Qed.

Lemma lookupNode_storeNode_eq k n m ns :
  lookupNode k ns = Some m -> lookupNode k (storeNode k n ns) = Some n.
Proof. intros _. apply lookupNode_storeNode. Qed.

Lemma values_replaceNode k n ns m :
  m ∈ Object_values (replaceNode k n ns) -> m = n \/ m ∈ Object_values ns.
Proof.
  unfold Object_values. induction ns as [| [k0 m0] ns IH]; simpl.
  - intros H. inversion H.
  - destruct (String.eqb k0 k); simpl; intros H;
      apply elem_of_cons in H as [-> | H]; auto.
    + right. right. exact H.
    + right. left.
    + destruct (IH H) as [-> | H']; [auto |]. right. right. exact H'.
Qed.

Lemma values_insertNode k n ns m :
  m ∈ Object_values (insertNode k n ns) -> m = n \/ m ∈ Object_values ns.
Proof.
  unfold Object_values. induction ns as [| [k0 m0] ns IH]; simpl.
  - intros H. apply list_elem_of_singleton in H. auto.
  - destruct (listedBefore k k0); simpl; intros H;
      apply elem_of_cons in H as [-> | H]; auto.
    + right. left.
    + destruct (IH H) as [-> | H']; [auto |]. right. right. exact H'.
Qed.

Lemma values_storeNode k n ns m :
  m ∈ Object_values (storeNode k n ns) -> m = n \/ m ∈ Object_values ns.
Proof.
  unfold storeNode. destruct (lookupNode k ns).
  - apply values_replaceNode.
  - apply values_insertNode.
Qed.
(** ** Track end *)

(** The queue after a [TrackEndEvent], for every state in queue mode. *)
Lemma trackEnd_queue (s : State) (payload : Payload) (node : string)
    (p : PlayerState) (q : list string) :
  queue (Config s) = true ->
  Players s !! guildId payload = Some p ->
  pl_queue p = Some q ->
  pl_queue <$> (Players (exec (trackEnd payload node) s) !! guildId payload)
  = Some (Some (if notReplaced (reason payload) then tail q else q)).
Proof.
  destruct s as [[bot sh qu dbg] ns ps ids rq em], payload as [g r t],
    p as [pc pp pa pv pn pq pt].
  simpl. intros -> Hp ->. run with Hp.
  destruct (notReplaced r); run with Hp; [| reflexivity].
  destruct (0 <? length (tail q))%nat; run with Hp; [| reflexivity].
  destruct (lookupNode node ns); run; reflexivity.
Qed.

(** C3 (as stated, refuted): in queue mode, a [TrackEndEvent] with reason
    "finished" on a player whose queue is empty removes no element. *)
Lemma trackEnd_empty_queue_removes_nothing :
  let s := Sample.withQueued [] in
  let s' := exec (trackEnd (Sample.ended "finished") "a.example") s in
  exists q q',
    pl_queue <$> (Players s !! "g") = Some (Some q)
    /\ pl_queue <$> (Players s' !! "g") = Some (Some q')
    /\ length q' + 1 <> length q.
Proof. exists [], []. repeat split. vm_compute. discriminate. Qed.

(** C3 (amended): in queue mode, a [TrackEndEvent] with reason "replaced"
    leaves the player's queue as it is, and one with any other reason
    removes the head of the queue when there is one (an empty queue stays
    empty). *)
Theorem trackEnd_pops_head_unless_replaced (s : State) (payload : Payload)
    (node : string) (p : PlayerState) (q : list string) :
  queue (Config s) = true ->
  Players s !! guildId payload = Some p ->
  pl_queue p = Some q ->
  (reason payload = Some "replaced" ->
   pl_queue <$> (Players (exec (trackEnd payload node) s) !! guildId payload)
   = Some (Some q))
  /\
  (reason payload <> Some "replaced" ->
   pl_queue <$> (Players (exec (trackEnd payload node) s) !! guildId payload)
   = Some (Some (tail q))).
Proof.
  intros Hq Hp Hpq.
  rewrite (trackEnd_queue s payload node p q Hq Hp Hpq).
  split; intros Hr.
  - apply notReplaced_false in Hr. rewrite Hr. reflexivity.
  - destruct (notReplaced (reason payload)) eqn:E; [reflexivity |].
    apply notReplaced_false in E. contradiction.
Qed.

Lemma trackEnd_pops_head_sample :
  pl_queue <$> (Players (exec (trackEnd (Sample.ended "replaced") "a.example")
                           (Sample.withQueued ["A"; "B"])) !! "g")
  = Some (Some ["A"; "B"])
  /\
  pl_queue <$> (Players (exec (trackEnd (Sample.ended "finished") "a.example")
                           (Sample.withQueued ["A"; "B"])) !! "g")
  = Some (Some ["B"]).
Proof.
  split.
  - apply (trackEnd_pops_head_unless_replaced
             (Sample.withQueued ["A"; "B"]) (Sample.ended "replaced")
             "a.example" (Sample.queued ["A"; "B"]) ["A"; "B"]);
      reflexivity.
  - apply (trackEnd_pops_head_unless_replaced
             (Sample.withQueued ["A"; "B"]) (Sample.ended "finished")
             "a.example" (Sample.queued ["A"; "B"]) ["A"; "B"]);
      [reflexivity | reflexivity | reflexivity | discriminate].
Defined.

(** ** Track end and track exception *)

(** C4 (as stated, refuted): in queue mode, on a "replaced" end reason
    [trackEnd] leaves the queue alone and sends nothing, while
    [trackException] pops the head and patches the next track. *)
Lemma trackEnd_trackException_differ_on_replaced :
  let s := Sample.withQueued ["A"; "B"] in
  let s1 := exec (trackEnd (Sample.ended "replaced") "a.example") s in
  let s2 := exec (trackException (Sample.ended "replaced") "a.example") s in
  ~ (Players s1 = Players s2 /\ requests s1 = requests s2).
Proof. intros s s1 s2 [_ H]. vm_compute in H. discriminate. Qed.

(** C4 (amended): whenever queueing is disabled or the end reason is not
    "replaced", the two handlers return the same value, leave the same
    player table and issue the same PATCH (or none). *)
Theorem trackEnd_trackException_agree (s : State) (payload : Payload)
    (node : string) :
  queue (Config s) = false \/ reason payload <> Some "replaced" ->
  fst (trackEnd payload node s) = fst (trackException payload node s)
  /\ Players (exec (trackEnd payload node) s)
     = Players (exec (trackException payload node) s)
  /\ requests (exec (trackEnd payload node) s)
     = requests (exec (trackException payload node) s).
Proof.
  intros H.
  assert (queue (Config s) && notReplaced (reason payload)
          = queue (Config s)) as E.
  { destruct H as [-> | H]; [reflexivity |].
    destruct (notReplaced (reason payload)) eqn:E;
      [apply andb_true_r | apply notReplaced_false in E; contradiction]. }
  clear H.
  destruct s as [[bot sh qu dbg] ns ps ids rq em], payload as [g r t].
  simpl in E. red_M.
  destruct (ps !! g) as [[pc pp pa pv pn pq pt] |] eqn:Hp;
    [| repeat split; reflexivity].
  change (if qu then notReplaced r else false)
    with (qu && notReplaced r). rewrite E.
  destruct qu; run with Hp.
  - destruct pq as [q |]; run with Hp; [| repeat split; reflexivity].
    destruct (0 <? length (tail q))%nat; run with Hp;
      [| repeat split; reflexivity].
    destruct (lookupNode node ns); run; repeat split; reflexivity.
  - repeat split; reflexivity.
Qed.

Lemma trackEnd_trackException_agree_sample :
  let s := Sample.withQueued ["A"; "B"] in
  fst (trackEnd (Sample.ended "finished") "a.example" s)
  = fst (trackException (Sample.ended "finished") "a.example" s)
  /\ Players (exec (trackEnd (Sample.ended "finished") "a.example") s)
     = Players (exec (trackException (Sample.ended "finished") "a.example") s)
  /\ requests (exec (trackEnd (Sample.ended "finished") "a.example") s)
     = requests (exec (trackException (Sample.ended "finished") "a.example") s).
Proof.
  apply (trackEnd_trackException_agree (Sample.withQueued ["A"; "B"])
           (Sample.ended "finished") "a.example").
  right. discriminate.
Defined.

(** C5 (the code departs from it): when the queue is not empty after the
    pop, both handlers patch the new head and return before the domain
    event is emitted. *)
Theorem advance_returns_before_emit :
  let s := Sample.withQueued ["A"; "B"] in
  let s1 := exec (trackEnd (Sample.ended "finished") "a.example") s in
  let s2 := exec (trackException (Sample.ended "finished") "a.example") s in
  requests s1 = [advanceRequest Sample.nodeA "g" (Some "B")]
  /\ emitted s1 = []
  /\ requests s2 = [advanceRequest Sample.nodeA "g" (Some "B")]
  /\ emitted s2 = [EmDebug "[FastLink] a.example has received a track exception"].
Proof. repeat split; reflexivity. Qed.

(** In the sibling path, where the queue runs empty, the event is emitted. *)
Example last_track_end_emits :
  emitted (exec (trackEnd (Sample.ended "finished") "a.example")
             (Sample.withQueued ["A"]))
  = [EmTrackEnd
       {| n_node := Some Sample.nodeA; n_guildId := "g";
          n_player := stopped (Sample.queued []); n_track := "A" |}].
Proof. reflexivity. Qed.

(** No auto-advance ever emits: general form of the above. *)
Lemma trackEnd_advance_emits_nothing (s : State) (payload : Payload)
    (node : string) (p : PlayerState) (x y : string) (q : list string)
    (n : Node) :
  queue (Config s) = true ->
  reason payload <> Some "replaced" ->
  Players s !! guildId payload = Some p ->
  pl_queue p = Some (x :: y :: q) ->
  lookupNode node (Nodes s) = Some n ->
  emitted (exec (trackEnd payload node) s) = emitted s
  /\ requests (exec (trackEnd payload node) s)
     = requests s ++ [advanceRequest n (guildId payload) (Some y)].
Proof.
  destruct s as [[bot sh qu dbg] ns ps ids rq em], payload as [g r t],
    p as [pc pp pa pv pn pq pt].
  simpl. intros -> Hr Hp -> Hn.
  destruct (notReplaced r) eqn:E;
    [| apply notReplaced_false in E; contradiction].
  run with Hp. rewrite E. run with Hp. simpl. rewrite Hn. run.
  split; reflexivity.
Qed.

(** ** Destroy *)

(** [destroy] never touches the player table, whether it returns or
    throws. *)
Lemma destroy_keeps_Players (this : Player) (s : State) :
  Players (exec (destroy this) s) = Players s.
Proof.
  destruct s as [cfg ns ps ids rq em], this as [g nd]. run.
  generalize (match nd with Some x => x | None => "undefined" end).
  intros k.
  destruct (lookupNode k ns) as [n |]; run; [| reflexivity].
  destruct (nd_players n) as [slots |]; run; [| reflexivity].
  match goal with
  | |- context [lookupNode k (storeNode k ?m ns)] =>
      destruct (lookupNode k (storeNode k m ns)) eqn:E
  end; run with E; reflexivity.
Qed.

(** C6 (the code departs from it): [destroy] leaves the player registered,
    so on a key whose player exists [createPlayer] after [destroy] throws
    "Player already exists.", whether [destroy] itself returned or threw. *)
Theorem destroy_then_createPlayer_fails (s : State) (this : Player)
    (p : PlayerState) :
  Players s !! this_guildId this = Some p ->
  fst (createPlayer this (exec (destroy this) s))
  = Throw (Error
      "Player already exists. Use playerCreated() to check if a player exists.").
Proof.
  intros Hp. rewrite <- (destroy_keeps_Players this s) in Hp.
  destruct (exec (destroy this) s) as [cfg ns ps ids rq em].
  destruct this as [g nd]. simpl in Hp. run_hyps. reflexivity.
Qed.

Lemma destroy_then_createPlayer_sample :
  let this := {| this_guildId := "g"; this_node := Some "a.example" |} in
  let s := exec (newPlayer "g" ≫= createPlayer) (Sample.initial true) in
  (fst (destroy this s) = Ok tt
   /\ method <$> requests (exec (destroy this) s) = [DELETE]
   /\ (lookupNode "a.example" (Nodes (exec (destroy this) s))
         ≫= nd_players) = Some {[ "g" := None ]})
  /\ fst (createPlayer this (exec (destroy this) s))
     = Throw (Error
         "Player already exists. Use playerCreated() to check if a player exists.").
Proof.
  intros this s. split; [repeat split; reflexivity |].
  apply (destroy_then_createPlayer_fails s this
           {| pl_connected := false; pl_playing := false; pl_paused := false;
              pl_volume := None; pl_node := "a.example";
              pl_queue := Some []; pl_track := None |}).
  reflexivity.
Defined.


(** ** Scenarios *)

(** C2: with queueing enabled, on a freshly created player (on the node
    [n] that selection returns, registered under its own host name),
    [update({encodedTrack: a})] followed by [update({encodedTrack: b})]
    sends exactly one request, a PATCH of the player on that node whose body
    is [{encodedTrack: a}]; the second call only appends, and the queue is
    [[a; b]].  A [TrackEndEvent] with reason "finished" then pops [a],
    sends one PATCH of the player whose body is [{encodedTrack: b}], and
    leaves the queue [[b]]. *)
Theorem queueing_scenario (s : State) (g a b ended : string) (n : Node) :
  queue (Config s) = true ->
  truthy g = true -> inherited g = false ->
  truthy a = true -> truthy b = true ->
  Players s !! g = None ->
  Selection.getRecommendedNode (Nodes s) = Ok (Some n) ->
  lookupNode (hostname n) (Nodes s) = Some n ->
  let player :=
    "http" +:+ (if secure n then "s" else "") +:+ "://" +:+ hostname n
    +:+ "/v4/sessions/" +:+ default "null" (sessionId n)
    +:+ "/players/" +:+ g in
  let only t :=
    {| encodedTrack := Some (Some t); encodedTracks := None;
       b_paused := None; b_volume := None; voice := None |} in
  exists this s1 s2 s3 s4,
    (newPlayer g ≫= createPlayer) s = (Ok this, s1)
    /\ update this (only a) None s1 = (Ok tt, s2)
    /\ requests s2
       = requests s
         ++ [{| url := player +:+ "?noReplace=false";
                authorization := Some (password n); body := Some (only a);
                rq_port := Some (port n); method := PATCH |}]
    /\ update this (only b) None s2 = (Ok tt, s3)
    /\ requests s3 = requests s2
    /\ pl_queue <$> (Players s3 !! g) = Some (Some [a; b])
    /\ trackEnd {| guildId := g; reason := Some "finished"; track := ended |}
         (hostname n) s3 = (Ok ReturnedPlayers, s4)
    /\ requests s4
       = requests s3
         ++ [{| url := player; authorization := Some (password n);
                body := Some (only b); rq_port := Some (port n);
                method := PATCH |}]
    /\ pl_queue <$> (Players s4 !! g) = Some (Some [b]).
Proof.
  destruct s as [[bot sh qu dbg] ns ps ids rq em]. simpl.
  intros -> Hg Hi Ha Hb Hp Hsel Hn.
  assert (notReplaced (Some "finished") = true) as Hfin by reflexivity.
  eexists _, _, _, _, _.
  split; [run_hyps; reflexivity |].
  split; [run_hyps; reflexivity |].
  split; [cbn [requests]; rewrite requestTo_player; reflexivity |].
  split; [run_hyps; reflexivity |].
  split; [reflexivity |].
  split; [run_hyps; reflexivity |].
  split; [run_hyps; reflexivity |].
  split; [cbn [requests]; rewrite advanceRequest_plain; reflexivity |].
  run_hyps. reflexivity.
Qed.

Lemma queueing_scenario_sample :
  let player := "http://a.example/v4/sessions/sess-a/players/g" in
  let only t :=
    {| encodedTrack := Some (Some t); encodedTracks := None;
       b_paused := None; b_volume := None; voice := None |} in
  exists this s1 s2 s3 s4,
    (newPlayer "g" ≫= createPlayer) (Sample.initial true) = (Ok this, s1)
    /\ update this (only "A") None s1 = (Ok tt, s2)
    /\ requests s2
       = [{| url := player +:+ "?noReplace=false";
             authorization := Some "pw-a"; body := Some (only "A");
             rq_port := Some 2333%Z; method := PATCH |}]
    /\ update this (only "B") None s2 = (Ok tt, s3)
    /\ requests s3 = requests s2
    /\ pl_queue <$> (Players s3 !! "g") = Some (Some ["A"; "B"])
    /\ trackEnd (Sample.ended "finished") "a.example" s3
       = (Ok ReturnedPlayers, s4)
    /\ requests s4
       = requests s3
         ++ [{| url := player; authorization := Some "pw-a";
                body := Some (only "B"); rq_port := Some 2333%Z;
                method := PATCH |}]
    /\ pl_queue <$> (Players s4 !! "g") = Some (Some ["B"]).
Proof.
  apply (queueing_scenario (Sample.initial true) "g" "A" "B" "A" Sample.nodeA);
    reflexivity.
Defined.

(** C7 (as stated, refuted): with queueing disabled, after
    [update({encodedTrack: "A"})] on a created player the [track] field is
    not ["A"]. *)
Lemma update_does_not_set_track :
  let s :=
    exec (this ← newPlayer "g";
          this ← createPlayer this;
          update this (trackBody (Some "A")) None)
      (Sample.initial false) in
  ~ (pl_track <$> (Players s !! "g") = Some (Some (Some "A"))).
Proof. intros s H. vm_compute in H. discriminate. Qed.

(** C7 (amended): with queueing disabled, on a created player,
    [update({encodedTrack: a})] sends one PATCH of the player with that body
    and leaves the [track] field [null]; a [TrackEndEvent] then leaves
    [track] at [null] and [playing] at [false] and emits the [trackEnd]
    event.  Whatever state a player is in, with queueing disabled a
    [TrackEndEvent] sets its [track] to [null] and its [playing] to
    [false]. *)
Theorem single_track_scenario (s : State) (g a : string) (payload : Payload)
    (node : string) (n : Node) :
  queue (Config s) = false ->
  truthy g = true -> inherited g = false ->
  Players s !! g = None ->
  Selection.getRecommendedNode (Nodes s) = Ok (Some n) ->
  lookupNode (hostname n) (Nodes s) = Some n ->
  guildId payload = g ->
  let player :=
    "http" +:+ (if secure n then "s" else "") +:+ "://" +:+ hostname n
    +:+ "/v4/sessions/" +:+ default "null" (sessionId n)
    +:+ "/players/" +:+ g in
  let only t :=
    {| encodedTrack := Some (Some t); encodedTracks := None;
       b_paused := None; b_volume := None; voice := None |} in
  (exists this s1 s2 s3,
     (newPlayer g ≫= createPlayer) s = (Ok this, s1)
     /\ update this (only a) None s1 = (Ok tt, s2)
     /\ requests s2
        = requests s
          ++ [{| url := player +:+ "?noReplace=false";
                 authorization := Some (password n); body := Some (only a);
                 rq_port := Some (port n); method := PATCH |}]
     /\ pl_track <$> (Players s2 !! g) = Some (Some None)
     /\ trackEnd payload node s2 = (Ok ReturnedPlayers, s3)
     /\ pl_track <$> (Players s3 !! g) = Some (Some None)
     /\ pl_playing <$> (Players s3 !! g) = Some false
     /\ requests s3 = requests s2
     /\ emitted s3
        = emitted s
          ++ [EmTrackEnd
                {| n_node := lookupNode node (Nodes s); n_guildId := g;
                   n_player :=
                     {| pl_connected := false; pl_playing := false;
                        pl_paused := false; pl_volume := None;
                        pl_node := hostname n; pl_queue := Some [];
                        pl_track := Some None |};
                   n_track := track payload |}])
  /\
  (forall s0 p,
     queue (Config s0) = false ->
     Players s0 !! g = Some p ->
     exists s3,
       trackEnd payload node s0 = (Ok ReturnedPlayers, s3)
       /\ Players s3 !! g
          = Some {| pl_connected := pl_connected p; pl_playing := false;
                    pl_paused := pl_paused p; pl_volume := None;
                    pl_node := pl_node p; pl_queue := pl_queue p;
                    pl_track := Some None |}).
Proof.
  destruct s as [[bot sh qu dbg] ns ps ids rq em], payload as [g' r t]. simpl.
  intros -> Hg Hi Hp Hsel Hn ->. split.
  - eexists _, _, _, _.
    split; [run_hyps; reflexivity |].
    split; [destruct (truthy a) eqn:Ea; run_hyps; reflexivity |].
    split; [cbn [requests]; rewrite requestTo_player; reflexivity |].
    split; [run_hyps; reflexivity |].
    split; [run_hyps; reflexivity |].
    split; [run_hyps; reflexivity |].
    split; [run_hyps; reflexivity |].
    split; reflexivity.
  - intros [[bot0 sh0 qu0 dbg0] ns0 ps0 ids0 rq0 em0]
      [pc pp pa pv pn pq pt]. simpl. intros -> Hp0.
    eexists. split; [run_hyps; reflexivity |].
    run_hyps. reflexivity.
Qed.

Lemma single_track_scenario_sample :
  let player := "http://a.example/v4/sessions/sess-a/players/g" in
  let only t :=
    {| encodedTrack := Some (Some t); encodedTracks := None;
       b_paused := None; b_volume := None; voice := None |} in
  (exists this s1 s2 s3,
     (newPlayer "g" ≫= createPlayer) (Sample.initial false) = (Ok this, s1)
     /\ update this (only "A") None s1 = (Ok tt, s2)
     /\ requests s2
        = [{| url := player +:+ "?noReplace=false";
              authorization := Some "pw-a"; body := Some (only "A");
              rq_port := Some 2333%Z; method := PATCH |}]
     /\ pl_track <$> (Players s2 !! "g") = Some (Some None)
     /\ trackEnd (Sample.ended "finished") "a.example" s2
        = (Ok ReturnedPlayers, s3)
     /\ pl_track <$> (Players s3 !! "g") = Some (Some None)
     /\ pl_playing <$> (Players s3 !! "g") = Some false
     /\ requests s3 = requests s2
     /\ emitted s3
        = [EmTrackEnd
             {| n_node := Some Sample.nodeA; n_guildId := "g";
                n_player :=
                  {| pl_connected := false; pl_playing := false;
                     pl_paused := false; pl_volume := None;
                     pl_node := "a.example"; pl_queue := Some [];
                     pl_track := Some None |};
                n_track := "A" |}])
  /\
  (exists s3,
     trackEnd (Sample.ended "finished") "a.example" Sample.withSingle
     = (Ok ReturnedPlayers, s3)
     /\ Players s3 !! "g"
        = Some {| pl_connected := true; pl_playing := false;
                  pl_paused := false; pl_volume := None;
                  pl_node := "a.example"; pl_queue := None;
                  pl_track := Some None |}).
Proof.
  destruct (single_track_scenario (Sample.initial false) "g" "A"
              (Sample.ended "finished") "a.example" Sample.nodeA)
    as [H1 H2]; try reflexivity.
  split; [exact H1 |].
  apply (H2 Sample.withSingle Sample.single); reflexivity.
Defined.

(** ** Skip *)

(** C8 (as stated, refuted): a [Player] object made before the player
    existed has no node; on a non-empty queue its [skipTrack] removes the
    head and then throws, and no PATCH is sent. *)
Lemma skipTrack_without_node_sends_nothing :
  let this := {| this_guildId := "g"; this_node := None |} in
  let s := Sample.withQueued ["A"; "B"] in
  fst (newPlayer "g" (Sample.initial true)) = Ok this
  /\ fst (skipTrack this s) = Throw TypeError
  /\ pl_queue <$> (Players (exec (skipTrack this) s) !! "g")
     = Some (Some ["B"])
  /\ requests (exec (skipTrack this) s) = requests s.
Proof. repeat split; reflexivity. Qed.

(** C8 (amended): with queueing disabled [skipTrack] throws
    "Queue is disabled."; with queueing enabled, on an empty queue it
    returns [skipped: false] and sends nothing, and on a non-empty queue it
    removes the head and, when the object's node is a registered node,
    sends exactly one request, a PATCH of the player on that node whose
    body names the new head, and returns [skipped: true] with the rest of
    the queue; when the object's node is not registered it still removes
    the head, then throws a [TypeError], sending nothing. *)
Theorem skipTrack_spec (s : State) (this : Player) :
  let g := this_guildId this in
  let key := default "undefined" (this_node this) in
  (queue (Config s) = false ->
   skipTrack this s
   = (Throw (Error "Queue is disabled. (Config.queue = false)"), s))
  /\
  (forall p,
     queue (Config s) = true ->
     Players s !! g = Some p ->
     pl_queue p = Some [] ->
     skipTrack this s
     = (Ok {| skipped := false; sk_queue := [];
              sk_error := Some "No tracks in queue." |}, s))
  /\
  (forall p x q n,
     queue (Config s) = true ->
     Players s !! g = Some p ->
     pl_queue p = Some (x :: q) ->
     lookupNode key (Nodes s) = Some n ->
     exists s',
       skipTrack this s
       = (Ok {| skipped := true; sk_queue := q; sk_error := None |}, s')
       /\ Players s'
          = <[g := {| pl_connected := pl_connected p;
                      pl_playing := pl_playing p; pl_paused := pl_paused p;
                      pl_volume := pl_volume p; pl_node := pl_node p;
                      pl_queue := Some q; pl_track := pl_track p |}]>
              (Players s)
       /\ requests s'
          = requests s
            ++ [{| url := "http" +:+ (if secure n then "s" else "") +:+ "://"
                          +:+ hostname n +:+ "/v4/sessions/"
                          +:+ default "null" (sessionId n)
                          +:+ "/players/" +:+ g;
                   authorization := Some (password n);
                   body :=
                     Some {| encodedTrack :=
                               match q with
                               | t :: _ => Some (Some t)
                               | [] => None
                               end;
                             encodedTracks := None; b_paused := None;
                             b_volume := None; voice := None |};
                   rq_port := Some (port n); method := PATCH |}])
  /\
  (forall p x q,
     queue (Config s) = true ->
     Players s !! g = Some p ->
     pl_queue p = Some (x :: q) ->
     lookupNode key (Nodes s) = None ->
     exists s',
       skipTrack this s = (Throw TypeError, s')
       /\ pl_queue <$> (Players s' !! g) = Some (Some q)
       /\ requests s' = requests s).
Proof.
  destruct s as [[bot sh qu dbg] ns ps ids rq em], this as [g nd]. simpl.
  cbv beta iota zeta delta [from_option id].
  split; [| split; [| split]].
  - intros ->. reflexivity.
  - intros [pc pp pa pv pn pq pt]. simpl. intros -> Hp ->.
    run_hyps. reflexivity.
  - intros [pc pp pa pv pn pq pt] x q n. simpl. intros -> Hp -> Hn.
    eexists. split; [run_hyps; reflexivity |]. split; [reflexivity |].
    cbn [requests]. rewrite requestTo_player_plain.
    destruct q; reflexivity.
  - intros [pc pp pa pv pn pq pt] x q. simpl. intros -> Hp -> Hn.
    eexists. split; [run_hyps; reflexivity |].
    split; [run_hyps; reflexivity | reflexivity].
Qed.

Lemma skipTrack_sample :
  let this := {| this_guildId := "g"; this_node := Some "a.example" |} in
  skipTrack this (Sample.initial false)
  = (Throw (Error "Queue is disabled. (Config.queue = false)"),
     Sample.initial false)
  /\
  skipTrack this (Sample.withQueued [])
  = (Ok {| skipped := false; sk_queue := [];
           sk_error := Some "No tracks in queue." |}, Sample.withQueued [])
  /\
  (exists s',
     skipTrack this (Sample.withQueued ["A"; "B"])
     = (Ok {| skipped := true; sk_queue := ["B"]; sk_error := None |}, s')
     /\ Players s'
        = <["g" := {| pl_connected := true; pl_playing := true;
                      pl_paused := false; pl_volume := Some 100%Z;
                      pl_node := "a.example"; pl_queue := Some ["B"];
                      pl_track := None |}]>
            (Players (Sample.withQueued ["A"; "B"]))
     /\ requests s'
        = [{| url := "http://a.example/v4/sessions/sess-a/players/g";
              authorization := Some "pw-a";
              body := Some {| encodedTrack := Some (Some "B");
                              encodedTracks := None; b_paused := None;
                              b_volume := None; voice := None |};
              rq_port := Some 2333%Z; method := PATCH |}])
  /\
  (exists s',
     skipTrack {| this_guildId := "g"; this_node := None |}
       (Sample.withQueued ["A"; "B"]) = (Throw TypeError, s')
     /\ pl_queue <$> (Players s' !! "g") = Some (Some ["B"])
     /\ requests s' = []).
Proof.
  intros this. split; [| split; [| split]].
  - apply (proj1 (skipTrack_spec (Sample.initial false) this)).
    reflexivity.
  - apply (proj1 (proj2 (skipTrack_spec (Sample.withQueued []) this))
             (Sample.queued [])); reflexivity.
  - apply (proj1 (proj2 (proj2 (skipTrack_spec (Sample.withQueued ["A"; "B"])
                                  this)))
             (Sample.queued ["A"; "B"]) "A" ["B"] Sample.nodeA); reflexivity.
  - apply (proj2 (proj2 (proj2 (skipTrack_spec (Sample.withQueued ["A"; "B"])
                                  {| this_guildId := "g";
                                     this_node := None |})))
             (Sample.queued ["A"; "B"]) "A" ["B"]); reflexivity.
Defined.
(** ** Voice correlation *)

(** C9: a voice-server notification without a pending session entry is
    dropped; a voice-state notification for the bot followed by a
    voice-server notification calls [update] on the guild's player with
    [{voice: {token, endpoint, sessionId}}] and deletes the pending entry; a
    second voice-state notification before the server notification
    overwrites the pending session id. *)
Theorem handleRaw_voice_correlation (s : State) (g sid sid' tok endp : string) :
  (sessionIds s !! g = None ->
   handleRaw (VOICE_SERVER_UPDATE g tok endp) s = (Ok tt, s))
  /\
  (forall p n,
     truthy g = true -> truthy sid = true ->
     Players s !! g = Some p ->
     lookupNode (pl_node p) (Nodes s) = Some n ->
     let s1 := exec (handleRaw (VOICE_STATE_UPDATE g sid (botId (Config s)))) s in
     let this := {| this_guildId := g; this_node := Some (pl_node p) |} in
     let credentials :=
       {| encodedTrack := None; encodedTracks := None; b_paused := None;
          b_volume := None;
          voice := Some {| token := tok; endpoint := endp;
                           v_sessionId := sid |} |} in
     exists s2,
       sessionIds s1 !! g = Some sid
       /\ handleRaw (VOICE_SERVER_UPDATE g tok endp) s1 = (Ok tt, s2)
       /\ s2 = setSessionIds (delete g (sessionIds s1))
                 (exec (update this credentials None) s1)
       /\ requests s2
          = requests s
            ++ [requestTo n (playerPath n g +:+ "?noReplace=false")
                  (Some credentials) PATCH]
       /\ sessionIds s2 !! g = None)
  /\
  (let s1 := exec (handleRaw (VOICE_STATE_UPDATE g sid (botId (Config s)))) s in
   handleRaw (VOICE_STATE_UPDATE g sid' (botId (Config s))) s1
   = (Ok tt, setSessionIds (<[g := sid']> (sessionIds s)) s)).
Proof.
  destruct s as [[bot sh qu dbg] ns ps ids rq em]. simpl.
  split; [| split].
  - intros H. run_hyps. reflexivity.
  - intros [pc pp pa pv pn pq pt] n. simpl. intros Hg Hsid Hp Hn.
    pose proof (String.eqb_refl bot) as Hbot.
    eexists. split; [| split; [| split; [| split]]].
    + run_hyps. reflexivity.
    + run_hyps. reflexivity.
    + run_hyps. reflexivity.
    + reflexivity.
    + simpl. apply lookup_delete_eq.
  - pose proof (String.eqb_refl bot) as Hbot.
    run_hyps. rewrite insert_insert_eq. reflexivity.
Qed.

Lemma handleRaw_voice_correlation_sample :
  let s := Sample.withQueued ["A"] in
  let s1 := exec (handleRaw (VOICE_STATE_UPDATE "g" "v1" "bot")) s in
  let credentials :=
    {| encodedTrack := None; encodedTracks := None; b_paused := None;
       b_volume := None;
       voice := Some {| token := "tok"; endpoint := "eu.example";
                        v_sessionId := "v1" |} |} in
  handleRaw (VOICE_SERVER_UPDATE "g" "tok" "eu.example") s = (Ok tt, s)
  /\
  (exists s2,
     sessionIds s1 !! "g" = Some "v1"
     /\ handleRaw (VOICE_SERVER_UPDATE "g" "tok" "eu.example") s1 = (Ok tt, s2)
     /\ s2 = setSessionIds (delete "g" (sessionIds s1))
               (exec (update {| this_guildId := "g";
                                this_node := Some "a.example" |}
                        credentials None) s1)
     /\ requests s2
        = [requestTo Sample.nodeA
             (playerPath Sample.nodeA "g" +:+ "?noReplace=false")
             (Some credentials) PATCH]
     /\ sessionIds s2 !! "g" = None)
  /\
  handleRaw (VOICE_STATE_UPDATE "g" "v2" "bot") s1
  = (Ok tt, setSessionIds (<["g" := "v2"]> (sessionIds s)) s).
Proof.
  intros s s1 credentials.
  split; [| split].
  - apply (proj1 (handleRaw_voice_correlation s "g" "v1" "v2" "tok"
                    "eu.example")).
    reflexivity.
  - apply (proj1 (proj2 (handleRaw_voice_correlation s "g" "v1" "v2" "tok"
                           "eu.example"))
             (Sample.queued ["A"]) Sample.nodeA); reflexivity.
  - apply (proj2 (proj2 (handleRaw_voice_correlation s "g" "v1" "v2" "tok"
                           "eu.example"))).
Defined.

(** C10: a voice-server notification for a guild with a pending session
    entry but no player is dropped: [update] is not called and the pending
    entry stays. *)
Theorem handleRaw_server_update_without_player (s : State)
    (g sid tok endp : string) :
  truthy g = true ->
  sessionIds s !! g = Some sid ->
  Players s !! g = None ->
  handleRaw (VOICE_SERVER_UPDATE g tok endp) s = (Ok tt, s).
Proof.
  destruct s as [cfg ns ps ids rq em]. simpl. intros Hg Hsid Hp.
  destruct (truthy sid) eqn:Et; run_hyps; reflexivity.
Qed.

Lemma handleRaw_server_update_without_player_sample :
  let s :=
    exec (handleRaw (VOICE_STATE_UPDATE "g" "v1" "bot")) (Sample.initial true) in
  sessionIds s !! "g" = Some "v1"
  /\ handleRaw (VOICE_SERVER_UPDATE "g" "tok" "eu.example") s = (Ok tt, s).
Proof.
  intros s. split; [reflexivity |].
  apply (handleRaw_server_update_without_player s "g" "v1" "tok" "eu.example");
    reflexivity.
Defined.

(** ** Batches *)

(** A batch on an empty queue becomes the queue and its first element is
    patched; a batch on a non-empty queue is appended silently. *)
Example update_batch_adopts_then_appends :
  let s :=
    exec (this ← newPlayer "g";
          this ← createPlayer this;
          _ ← update this
                {| encodedTrack := None; encodedTracks := Some ["A"; "B"];
                   b_paused := None; b_volume := None; voice := None |} None;
          update this
            {| encodedTrack := None; encodedTracks := Some ["C"];
               b_paused := None; b_volume := None; voice := None |} None)
      (Sample.initial true) in
  pl_queue <$> (Players s !! "g") = Some (Some ["A"; "B"; "C"])
  /\ requests s
     = [requestTo Sample.nodeA (playerPath Sample.nodeA "g")
          (Some (trackBody (Some "A"))) PATCH].
Proof. split; reflexivity. Qed.

(** * Further properties of the commands *)

(** ** Availability *)

Lemma no_connected_no_recommendation (ns : list (string * Node)) :
  (forall m, m ∈ Object_values ns -> connected m = false) ->
  Selection.getRecommendedNode ns = Throw (Error "No node connected.").
Proof.
  intros Hnone.
  unfold Selection.getRecommendedNode, Selection.connectedNodes.
  destruct (List.filter connected (Object_values ns)) as [| k l] eqn:E;
    [reflexivity |].
  assert (k ∈ List.filter connected (Object_values ns)) as Hk
    by (rewrite E; left).
  apply SelectionFacts.elem_of_filter_bool in Hk as [Hk Hc].
  rewrite (Hnone k Hk) in Hc. discriminate.
Qed.

Lemma unavailable_iff_throws (ns : list (string * Node)) :
  Selection.anyNodeAvailable ns = false
  <-> Selection.getRecommendedNode ns = Throw (Error "No node connected.").
Proof.
  unfold Selection.anyNodeAvailable, Selection.getRecommendedNode.
  destruct (Selection.connectedNodes ns) as [| x l] eqn:E;
    cbn [length Nat.eqb].
  - split; reflexivity.
  - split; [discriminate |].
    destruct (Selection.sort Selection.compareFn (x :: l)) as [r | e] eqn:S;
      [discriminate |].
    apply SelectionFacts.sort_throws in S. subst e. discriminate.
Qed.

(** What comes out of a sort went in. *)
Lemma insertSorted_elements (x : Node) (l r : list Node) :
  Selection.insertSorted Selection.compareFn x l = Ok r ->
  forall m, m ∈ r -> m = x \/ m ∈ l.
Proof.
  revert r. induction l as [| y l IH]; intros r; simpl.
  - intros [= <-] m Hm. apply list_elem_of_singleton in Hm. auto.
  - destruct (Selection.compareFn x y) as [v | e]; [| discriminate].
    destruct (Selection.isPositive v).
    + destruct (Selection.insertSorted Selection.compareFn x l) as [r' | e];
        [| discriminate].
      intros [= <-] m Hm. apply elem_of_cons in Hm as [-> | Hm].
      * right. left.
      * destruct (IH r' eq_refl m Hm) as [-> | Hm']; [auto |].
        right. right. exact Hm'.
    + intros [= <-] m Hm. apply elem_of_cons in Hm as [-> | Hm]; auto.
Qed.

Lemma sort_elements (l r : list Node) :
  Selection.sort Selection.compareFn l = Ok r -> forall m, m ∈ r -> m ∈ l.
Proof.
  revert r. induction l as [| x l IH]; intros r; simpl.
  - intros [= <-] m Hm. exact Hm.
  - destruct (Selection.sort Selection.compareFn l) as [r' | e];
      [| discriminate].
    intros I m Hm.
    destruct (insertSorted_elements _ _ _ I m Hm) as [-> | Hm']; [left |].
    right. apply (IH r' eq_refl), Hm'.
Qed.

(** With statistics everywhere the sort comes back. *)
Lemma sort_with_stats (l : list Node) :
  (forall m, m ∈ l -> is_Some (stats m)) ->
  exists r, Selection.sort Selection.compareFn l = Ok r.
Proof.
  induction l as [| x l IH]; intros Hl; simpl; [eauto |].
  destruct IH as [r Hr]; [intros m Hm; apply Hl; right; exact Hm |].
  rewrite Hr. destruct (Hl x) as [sx Hx]; [left |].
  destruct (SelectionFacts.insertSorted_head x sx r Hx) as (r' & Hins & _).
  - intros m Hm. apply Hl. right. apply (sort_elements _ _ Hr), Hm.
  - eauto.
Qed.

(** A sort of two or more entries that comes back has read the statistics
    of every entry. *)
Lemma sort_reads_all (l r : list Node) :
  Selection.sort Selection.compareFn l = Ok r ->
  2 <= length l ->
  forall m, m ∈ l -> is_Some (stats m).
Proof.
  revert r. induction l as [| x l IH]; intros r; simpl; [lia |].
  destruct (Selection.sort Selection.compareFn l) as [r' | e] eqn:S;
    [| discriminate].
  intros I Hlen.
  pose proof (SelectionFacts.sort_length _ _ S) as Hr'.
  destruct r' as [| y r'']; [simpl in Hr'; lia |].
  simpl in I. unfold Selection.compareFn at 1 in I.
  destruct (stats x) as [sx |] eqn:Sx; [| discriminate].
  destruct (stats y) as [sy |] eqn:Sy; [| discriminate].
  intros m Hm. apply elem_of_cons in Hm as [-> | Hm]; [eauto |].
  destruct l as [| z [| z' l']].
  - simpl in Hlen. lia.
  - simpl in S. injection S as <- <-.
    apply list_elem_of_singleton in Hm. subst m. eauto.
  - apply (IH _ eq_refl); [simpl; lia | exact Hm].
Qed.

(** X1: [anyNodeAvailable()] is [false] exactly when [getRecommendedNode()]
    throws "No node connected."; when it is [true] and every connected node
    has statistics, [getRecommendedNode()] returns a connected node of the
    registry; a single connected node is returned whether it has statistics
    or not; and with two or more connected nodes, one of which has no
    statistics yet, [getRecommendedNode()] throws a [TypeError]. *)
Theorem anyNodeAvailable_iff_recommendable (ns : list (string * Node)) :
  let live := List.filter connected (Object_values ns) in
  (Selection.anyNodeAvailable ns = false
   <-> Selection.getRecommendedNode ns = Throw (Error "No node connected."))
  /\
  (Selection.anyNodeAvailable ns = true ->
   (forall m, m ∈ live -> is_Some (stats m)) ->
   exists n,
     Selection.getRecommendedNode ns = Ok (Some n)
     /\ n ∈ Object_values ns /\ connected n = true)
  /\
  (forall n, live = [n] -> Selection.getRecommendedNode ns = Ok (Some n))
  /\
  (forall m,
     2 <= length live -> m ∈ live -> stats m = None ->
     Selection.getRecommendedNode ns = Throw TypeError).
Proof.
  intros live. split; [apply unavailable_iff_throws |].
  split; [| split].
  - intros Ha Hst.
    unfold Selection.anyNodeAvailable, Selection.getRecommendedNode,
      Selection.connectedNodes in *.
    fold live in Ha |- *.
    destruct live as [| x l] eqn:E; [discriminate |].
    cbn [length Nat.eqb].
    destruct (Selection.sort Selection.compareFn (x :: l)) as [r | e] eqn:S.
    + pose proof (SelectionFacts.sort_length _ _ S) as Hlen.
      destruct r as [| n r]; [discriminate |].
      exists n. split; [reflexivity |].
      assert (n ∈ x :: l) as Hn.
      { apply (sort_elements _ _ S). left. }
      rewrite <- E in Hn. subst live.
      apply SelectionFacts.elem_of_filter_bool in Hn. exact Hn.
    + exfalso. apply (sort_with_stats (x :: l)) in Hst.
      destruct Hst as [r Hr]. congruence.
  - intros n E.
    unfold Selection.getRecommendedNode, Selection.connectedNodes.
    fold live. rewrite E. reflexivity.
  - intros m Hlen Hm Hnone.
    unfold Selection.getRecommendedNode, Selection.connectedNodes.
    fold live.
    destruct live as [| x l] eqn:E; [simpl in Hlen; lia |].
    cbn [length Nat.eqb].
    destruct (Selection.sort Selection.compareFn (x :: l)) as [r | e] eqn:S.
    + destruct (sort_reads_all _ _ S Hlen m Hm) as [sm Hsm]. congruence.
    + apply SelectionFacts.sort_throws in S. subst e. reflexivity.
Qed.

Lemma anyNodeAvailable_sample :
  (Selection.anyNodeAvailable [("c.example", Sample.nodeC)] = false
   <-> Selection.getRecommendedNode [("c.example", Sample.nodeC)]
       = Throw (Error "No node connected."))
  /\
  (exists n,
     Selection.getRecommendedNode Sample.registry = Ok (Some n)
     /\ n ∈ Object_values Sample.registry /\ connected n = true)
  /\
  Selection.getRecommendedNode [("d.example", Sample.nodeD)]
  = Ok (Some Sample.nodeD)
  /\
  Selection.getRecommendedNode
    [("a.example", Sample.nodeA); ("d.example", Sample.nodeD)]
  = Throw TypeError.
Proof.
  split; [| split; [| split]].
  - apply (proj1 (anyNodeAvailable_iff_recommendable
                    [("c.example", Sample.nodeC)])).
  - apply (proj1 (proj2 (anyNodeAvailable_iff_recommendable Sample.registry)));
      [reflexivity |].
    intros m Hm. simpl in Hm.
    apply elem_of_cons in Hm as [-> | Hm]; [simpl; eauto |].
    apply list_elem_of_singleton in Hm. subst m. simpl. eauto.
  - apply (proj1 (proj2 (proj2 (anyNodeAvailable_iff_recommendable
                                  [("d.example", Sample.nodeD)])))).
    reflexivity.
  - apply (proj2 (proj2 (proj2 (anyNodeAvailable_iff_recommendable
             [("a.example", Sample.nodeA); ("d.example", Sample.nodeD)])))
             Sample.nodeD); [simpl; lia | simpl; right; left | reflexivity].
Defined.

(** X2: a registered node that is not connected has no influence on the
    selection, wherever it sits in the registry. *)
Theorem getRecommendedNode_ignores_disconnected
    (ns1 ns2 : list (string * Node)) (k : string) (n : Node) :
  connected n = false ->
  Selection.getRecommendedNode (ns1 ++ (k, n) :: ns2)
  = Selection.getRecommendedNode (ns1 ++ ns2).
Proof.
  intros Hn.
  unfold Selection.getRecommendedNode, Selection.connectedNodes, Object_values.
  rewrite !map_app, !List.filter_app. simpl. rewrite Hn. reflexivity.
Qed.

Lemma getRecommendedNode_ignores_disconnected_sample :
  Selection.getRecommendedNode Sample.registry
  = Selection.getRecommendedNode
      [("a.example", Sample.nodeA); ("b.example", Sample.nodeB)].
Proof.
  apply (getRecommendedNode_ignores_disconnected []
           [("a.example", Sample.nodeA); ("b.example", Sample.nodeB)]
           "c.example" Sample.nodeC).
  reflexivity.
Defined.

(** ** Creating a player *)

(** X3: [createPlayer] throws "Player already exists." on a key that has a
    player, and also on a key that names a property every object inherits
    (such as [constructor]); on any other new key with no connected node it
    throws "No node connected."; in all these cases nothing is changed. *)
Theorem createPlayer_fails_cleanly (s : State) (this : Player) :
  (is_Some (Players s !! this_guildId this)
   \/ inherited (this_guildId this) = true ->
   createPlayer this s
   = (Throw (Error
        "Player already exists. Use playerCreated() to check if a player exists."),
      s))
  /\
  (Players s !! this_guildId this = None ->
   inherited (this_guildId this) = false ->
   (forall m, m ∈ Object_values (Nodes s) -> connected m = false) ->
   createPlayer this s = (Throw (Error "No node connected."), s)).
Proof.
  destruct s as [cfg ns ps ids rq em], this as [g nd]. simpl. split.
  - intros [[p Hp] | Hi]; [run_hyps; reflexivity |].
    destruct (ps !! g) eqn:Hp; run_hyps; reflexivity.
  - intros Hp Hi Hnone. apply no_connected_no_recommendation in Hnone.
    run_hyps. reflexivity.
Qed.

Lemma createPlayer_fails_cleanly_sample :
  createPlayer {| this_guildId := "g"; this_node := None |}
    (Sample.withQueued ["A"])
  = (Throw (Error
       "Player already exists. Use playerCreated() to check if a player exists."),
     Sample.withQueued ["A"])
  /\
  createPlayer {| this_guildId := "constructor"; this_node := None |}
    (Sample.initial true)
  = (Throw (Error
       "Player already exists. Use playerCreated() to check if a player exists."),
     Sample.initial true)
  /\
  createPlayer {| this_guildId := "g"; this_node := None |}
    (setNodes [("c.example", Sample.nodeC)] (Sample.initial true))
  = (Throw (Error "No node connected."),
     setNodes [("c.example", Sample.nodeC)] (Sample.initial true)).
Proof.
  split; [| split].
  - apply (proj1 (createPlayer_fails_cleanly (Sample.withQueued ["A"])
                    {| this_guildId := "g"; this_node := None |})).
    left. vm_compute. eauto.
  - apply (proj1 (createPlayer_fails_cleanly (Sample.initial true)
                    {| this_guildId := "constructor"; this_node := None |})).
    right. reflexivity.
  - apply (proj2 (createPlayer_fails_cleanly
                    (setNodes [("c.example", Sample.nodeC)]
                       (Sample.initial true))
                    {| this_guildId := "g"; this_node := None |}));
      [reflexivity | reflexivity |].
    intros m Hm. apply list_elem_of_singleton in Hm. subst m. reflexivity.
Defined.

(** X4: on a new key that names no inherited property, with a node to
    recommend, [createPlayer] registers exactly the initial entry for the
    configured mode on the recommended node (not connected, not playing, not
    paused, no volume; an empty queue with queueing, a null track without),
    sends nothing, and returns the object bound to that node; a later
    [new Player] for the same guild is bound to the same node, and
    [playerCreated] answers [true]. *)
Theorem createPlayer_registers (s : State) (this : Player) (n : Node) :
  truthy (this_guildId this) = true ->
  inherited (this_guildId this) = false ->
  Players s !! this_guildId this = None ->
  Selection.getRecommendedNode (Nodes s) = Ok (Some n) ->
  let g := this_guildId this in
  let this' := {| this_guildId := g; this_node := Some (hostname n) |} in
  let entry :=
    {| pl_connected := false; pl_playing := false; pl_paused := false;
       pl_volume := None; pl_node := hostname n;
       pl_queue := if queue (Config s) then Some [] else None;
       pl_track := if queue (Config s) then None else Some None |} in
  let s' :=
    {| Config := Config s; Nodes := Nodes s;
       Players := <[g := entry]> (Players s);
       sessionIds := sessionIds s; requests := requests s;
       emitted := emitted s |} in
  createPlayer this s = (Ok this', s')
  /\ newPlayer g s' = (Ok this', s')
  /\ playerCreated this' s' = (Ok true, s').
Proof.
  destruct s as [[bot sh qu dbg] ns ps ids rq em], this as [g nd]. simpl.
  intros Hg Hi Hp Hsel. split; [| split].
  - destruct qu; run_hyps; rewrite insert_insert_eq; reflexivity.
  - run_hyps. reflexivity.
  - run_hyps. reflexivity.
Qed.

Lemma createPlayer_registers_sample :
  let this' := {| this_guildId := "g"; this_node := Some "a.example" |} in
  let s' :=
    {| Config := Sample.settings false; Nodes := Sample.registry;
       Players :=
         <["g" := {| pl_connected := false; pl_playing := false;
                     pl_paused := false; pl_volume := None;
                     pl_node := "a.example"; pl_queue := None;
                     pl_track := Some None |}]> ∅;
       sessionIds := sessionIds (Sample.initial false);
       requests := []; emitted := [] |} in
  createPlayer {| this_guildId := "g"; this_node := None |}
    (Sample.initial false) = (Ok this', s')
  /\ newPlayer "g" s' = (Ok this', s')
  /\ playerCreated this' s' = (Ok true, s').
Proof.
  apply (createPlayer_registers (Sample.initial false)
           {| this_guildId := "g"; this_node := None |} Sample.nodeA);
    reflexivity.
Defined.
(** ** Joining a voice channel *)




(** ** Updates *)

(** X6: a body without [encodedTrack] and [encodedTracks] is forwarded as
    it is in one PATCH of the player on the object's node, with that node's
    password and port, whose [noReplace] flag is [true] only for the literal
    [true]; the player table changes only if the body has a [paused]
    member, which sets [paused] to it and [playing] to its negation. *)
Theorem update_forwards (s : State) (this : Player) (b : Body)
    (noReplace : option bool) (n : Node) :
  encodedTrack b = None ->
  encodedTracks b = None ->
  lookupNode (default "undefined" (this_node this)) (Nodes s) = Some n ->
  let g := this_guildId this in
  let r :=
    {| url := ("http" +:+ (if secure n then "s" else "") +:+ "://"
               +:+ hostname n +:+ "/v4/sessions/"
               +:+ default "null" (sessionId n) +:+ "/players/" +:+ g)
              +:+ "?noReplace="
              +:+ match noReplace with Some true => "true" | _ => "false" end;
       authorization := Some (password n); body := Some b;
       rq_port := Some (port n); method := PATCH |} in
  (b_paused b = None ->
   update this b noReplace s
   = (Ok tt,
      {| Config := Config s; Nodes := Nodes s; Players := Players s;
         sessionIds := sessionIds s; requests := requests s ++ [r];
         emitted := emitted s |}))
  /\
  (forall pa p,
     b_paused b = Some pa ->
     Players s !! g = Some p ->
     update this b noReplace s
     = (Ok tt,
        {| Config := Config s; Nodes := Nodes s;
           Players :=
             <[g := {| pl_connected := pl_connected p;
                       pl_playing := negb pa; pl_paused := pa;
                       pl_volume := pl_volume p; pl_node := pl_node p;
                       pl_queue := pl_queue p; pl_track := pl_track p |}]>
               (Players s);
           sessionIds := sessionIds s; requests := requests s ++ [r];
           emitted := emitted s |})).
Proof.
  destruct s as [cfg ns ps ids rq em], this as [g nd],
    b as [et ets bp bv vo]. simpl.
  intros -> -> Hn. cbv beta iota delta [from_option id] in Hn.
  split.
  - intros ->. run_hyps. rewrite requestTo_player. reflexivity.
  - intros pa [pc pp ppa pv pn pq pt] -> Hp.
    run_hyps. rewrite requestTo_player. reflexivity.
Qed.

Lemma update_forwards_sample :
  let this := {| this_guildId := "g"; this_node := Some "a.example" |} in
  let volume :=
    {| encodedTrack := None; encodedTracks := None; b_paused := None;
       b_volume := Some 50%Z; voice := None |} in
  let pause :=
    {| encodedTrack := None; encodedTracks := None; b_paused := Some true;
       b_volume := None; voice := None |} in
  update this volume (Some true) (Sample.withQueued ["A"])
  = (Ok tt,
     {| Config := Sample.settings true; Nodes := Sample.registry;
        Players := Players (Sample.withQueued ["A"]);
        sessionIds := sessionIds (Sample.withQueued ["A"]);
        requests :=
          [{| url :=
                "http://a.example/v4/sessions/sess-a/players/g?noReplace=true";
              authorization := Some "pw-a"; body := Some volume;
              rq_port := Some 2333%Z; method := PATCH |}];
        emitted := [] |})
  /\
  update this pause None (Sample.withQueued ["A"])
  = (Ok tt,
     {| Config := Sample.settings true; Nodes := Sample.registry;
        Players :=
          <["g" := {| pl_connected := true; pl_playing := false;
                      pl_paused := true; pl_volume := Some 100%Z;
                      pl_node := "a.example"; pl_queue := Some ["A"];
                      pl_track := None |}]>
            (Players (Sample.withQueued ["A"]));
        sessionIds := sessionIds (Sample.withQueued ["A"]);
        requests :=
          [{| url :=
                "http://a.example/v4/sessions/sess-a/players/g?noReplace=false";
              authorization := Some "pw-a"; body := Some pause;
              rq_port := Some 2333%Z; method := PATCH |}];
        emitted := [] |}).
Proof.
  intros this volume pause. split.
  - apply (proj1 (update_forwards (Sample.withQueued ["A"]) this volume
                    (Some true) Sample.nodeA eq_refl eq_refl eq_refl)).
    reflexivity.
  - apply (proj2 (update_forwards (Sample.withQueued ["A"]) this pause
                    None Sample.nodeA eq_refl eq_refl eq_refl)
             true (Sample.queued ["A"])); reflexivity.
Defined.

(** X7: a batch ([encodedTracks], no [encodedTrack]) throws
    "Queue is disabled." when queueing is off; on an empty queue it becomes
    the queue and one PATCH of the player, without a query string, carries
    its first element alone; on a non-empty queue it is appended and
    nothing is sent.  The other members of a batch body are not
    forwarded. *)
Theorem update_batch_spec (s : State) (this : Player) (b : Body)
    (noReplace : option bool) (ts : list string) :
  encodedTrack b = None ->
  encodedTracks b = Some ts ->
  let g := this_guildId this in
  let queued (q : list string) (p : PlayerState) :=
    {| pl_connected := pl_connected p; pl_playing := pl_playing p;
       pl_paused := pl_paused p; pl_volume := pl_volume p;
       pl_node := pl_node p; pl_queue := Some q; pl_track := pl_track p |} in
  (queue (Config s) = false ->
   update this b noReplace s
   = (Throw (Error "Queue is disabled. (Config.queue = false)"), s))
  /\
  (forall p n,
     queue (Config s) = true ->
     Players s !! g = Some p ->
     pl_queue p = Some [] ->
     lookupNode (default "undefined" (this_node this)) (Nodes s) = Some n ->
     update this b noReplace s
     = (Ok tt,
        {| Config := Config s; Nodes := Nodes s;
           Players := <[g := queued ts p]> (Players s);
           sessionIds := sessionIds s;
           requests :=
             requests s
             ++ [{| url := "http" +:+ (if secure n then "s" else "") +:+ "://"
                           +:+ hostname n +:+ "/v4/sessions/"
                           +:+ default "null" (sessionId n)
                           +:+ "/players/" +:+ g;
                    authorization := Some (password n);
                    body :=
                      Some {| encodedTrack :=
                                match ts with
                                | t :: _ => Some (Some t)
                                | [] => None
                                end;
                              encodedTracks := None; b_paused := None;
                              b_volume := None; voice := None |};
                    rq_port := Some (port n); method := PATCH |}];
           emitted := emitted s |}))
  /\
  (forall p x q,
     queue (Config s) = true ->
     Players s !! g = Some p ->
     pl_queue p = Some (x :: q) ->
     update this b noReplace s
     = (Ok tt,
        {| Config := Config s; Nodes := Nodes s;
           Players := <[g := queued ((x :: q) ++ ts) p]> (Players s);
           sessionIds := sessionIds s; requests := requests s;
           emitted := emitted s |})).
Proof.
  destruct s as [[bot sh qu dbg] ns ps ids rq em], this as [g nd],
    b as [et ets bp bv vo]. simpl.
  intros -> ->. split; [| split].
  - intros ->. run_hyps. reflexivity.
  - intros [pc pp pa pv pn pq pt] n. simpl. intros -> Hp -> Hn.
    cbv beta iota delta [from_option id] in Hn.
    run_hyps. rewrite requestTo_player_plain. destruct ts; reflexivity.
  - intros [pc pp pa pv pn pq pt] x q. simpl. intros -> Hp ->.
    run_hyps. reflexivity.
Qed.

Lemma update_batch_spec_sample :
  let this := {| this_guildId := "g"; this_node := Some "a.example" |} in
  let batch :=
    {| encodedTrack := None; encodedTracks := Some ["C"; "D"];
       b_paused := Some true; b_volume := None; voice := None |} in
  let queued (q : list string) :=
    {| pl_connected := true; pl_playing := true; pl_paused := false;
       pl_volume := Some 100%Z; pl_node := "a.example"; pl_queue := Some q;
       pl_track := None |} in
  update this batch None (Sample.initial false)
  = (Throw (Error "Queue is disabled. (Config.queue = false)"),
     Sample.initial false)
  /\
  update this batch None (Sample.withQueued [])
  = (Ok tt,
     {| Config := Sample.settings true; Nodes := Sample.registry;
        Players := <["g" := queued ["C"; "D"]]> (Players (Sample.withQueued []));
        sessionIds := sessionIds (Sample.withQueued []);
        requests :=
          [{| url := "http://a.example/v4/sessions/sess-a/players/g";
              authorization := Some "pw-a";
              body := Some {| encodedTrack := Some (Some "C");
                              encodedTracks := None; b_paused := None;
                              b_volume := None; voice := None |};
              rq_port := Some 2333%Z; method := PATCH |}];
        emitted := [] |})
  /\
  update this batch None (Sample.withQueued ["A"])
  = (Ok tt,
     {| Config := Sample.settings true; Nodes := Sample.registry;
        Players :=
          <["g" := queued ["A"; "C"; "D"]]> (Players (Sample.withQueued ["A"]));
        sessionIds := sessionIds (Sample.withQueued ["A"]);
        requests := []; emitted := [] |}).
Proof.
  intros this batch queued. split; [| split].
  - apply (proj1 (update_batch_spec (Sample.initial false) this batch None
                    ["C"; "D"] eq_refl eq_refl)). reflexivity.
  - apply (proj1 (proj2 (update_batch_spec (Sample.withQueued []) this batch None
                           ["C"; "D"] eq_refl eq_refl))
             (Sample.queued []) Sample.nodeA); reflexivity.
  - apply (proj2 (proj2 (update_batch_spec (Sample.withQueued ["A"]) this batch
                           None ["C"; "D"] eq_refl eq_refl))
             (Sample.queued ["A"]) "A" []); reflexivity.
Defined.

(** X8: [update({encodedTrack: null})] empties the local queue, in either
    mode, and still forwards the body as it is in one PATCH of the player
    on the object's node. *)
Theorem update_null_track_clears_queue (s : State) (this : Player) (b : Body)
    (p : PlayerState) (n : Node) :
  encodedTrack b = Some None ->
  encodedTracks b = None ->
  b_paused b = None ->
  Players s !! this_guildId this = Some p ->
  lookupNode (default "undefined" (this_node this)) (Nodes s) = Some n ->
  update this b None s
  = (Ok tt,
     {| Config := Config s; Nodes := Nodes s;
        Players :=
          <[this_guildId this :=
              {| pl_connected := pl_connected p; pl_playing := pl_playing p;
                 pl_paused := pl_paused p; pl_volume := pl_volume p;
                 pl_node := pl_node p; pl_queue := Some [];
                 pl_track := pl_track p |}]> (Players s);
        sessionIds := sessionIds s;
        requests :=
          requests s
          ++ [{| url := ("http" +:+ (if secure n then "s" else "") +:+ "://"
                         +:+ hostname n +:+ "/v4/sessions/"
                         +:+ default "null" (sessionId n)
                         +:+ "/players/" +:+ this_guildId this)
                        +:+ "?noReplace=false";
                 authorization := Some (password n); body := Some b;
                 rq_port := Some (port n); method := PATCH |}];
        emitted := emitted s |}).
Proof.
  destruct s as [cfg ns ps ids rq em], this as [g nd],
    b as [et ets bp bv vo], p as [pc pp pa pv pn pq pt]. simpl.
  intros -> -> -> Hp Hn.
  cbv beta iota delta [from_option id] in Hn.
  run_hyps. rewrite requestTo_player. reflexivity.
Qed.

Lemma update_null_track_sample :
  let this := {| this_guildId := "g"; this_node := Some "a.example" |} in
  let stop :=
    {| encodedTrack := Some None; encodedTracks := None; b_paused := None;
       b_volume := None; voice := None |} in
  update this stop None (Sample.withQueued ["A"; "B"])
  = (Ok tt,
     {| Config := Sample.settings true; Nodes := Sample.registry;
        Players :=
          <["g" := {| pl_connected := true; pl_playing := true;
                      pl_paused := false; pl_volume := Some 100%Z;
                      pl_node := "a.example"; pl_queue := Some [];
                      pl_track := None |}]>
            (Players (Sample.withQueued ["A"; "B"]));
        sessionIds := sessionIds (Sample.withQueued ["A"; "B"]);
        requests :=
          [{| url :=
                "http://a.example/v4/sessions/sess-a/players/g?noReplace=false";
              authorization := Some "pw-a"; body := Some stop;
              rq_port := Some 2333%Z; method := PATCH |}];
        emitted := [] |}).
Proof.
  intros this stop.
  apply (update_null_track_clears_queue (Sample.withQueued ["A"; "B"]) this
           stop (Sample.queued ["A"; "B"]) Sample.nodeA);
    reflexivity.
Defined.
(** ** A player object without a registered node *)

(** Run the code and split on whatever it inspects next. *)
Ltac split_on x :=
  first
    [ is_var x; destruct x
    | lazymatch x with
      | ?m !! _ => is_var m; destruct x eqn:?
      | truthy _ => destruct x eqn:?
      | length _ => destruct x eqn:?
      | lookupNode _ _ => destruct x eqn:?
      | nd_players _ => destruct x eqn:?
      | Nat.eqb _ _ => destruct x eqn:?
      | Nat.ltb _ _ => destruct x eqn:?
      | Nat.leb _ _ => destruct x eqn:?
      | notReplaced _ => destruct x eqn:?
      | String.eqb _ _ => destruct x eqn:?
      | Selection.getRecommendedNode _ => destruct x eqn:?
      end ].

Ltac crush :=
  repeat (run_hyps; try reflexivity;
          try match goal with
              | |- context [match ?x with _ => _ end] => split_on x
              end).

(** X9: a [Player] object whose node is not in the registry never gets a
    request out: [update], [skipTrack], [destroy] and [loadCaptions] leave
    the list of requests as it is. *)
Theorem unregistered_node_sends_nothing (s : State) (this : Player) :
  lookupNode (propertyKey (this_node this)) (Nodes s) = None ->
  (forall b noReplace, requests (exec (update this b noReplace) s) = requests s)
  /\ requests (exec (skipTrack this) s) = requests s
  /\ requests (exec (destroy this) s) = requests s
  /\ (forall t lang, requests (exec (loadCaptions this t lang) s) = requests s).
Proof.
  destruct s as [[bot sh qu dbg] ns ps ids rq em], this as [g nd]. simpl.
  intros Hn. cbv beta iota delta [propertyKey from_option id] in Hn.
  split; [| split; [| split]].
  - intros [et ets bp bv vo] nr. crush.
  - crush.
  - crush.
  - intros t lang. unfold loadCaptions. crush.
Qed.

Lemma unregistered_node_sends_nothing_sample :
  let this := {| this_guildId := "g"; this_node := None |} in
  let s := Sample.withQueued ["A"; "B"] in
  requests (exec (update this (trackBody None) None) s) = requests s
  /\ requests (exec (skipTrack this) s) = requests s
  /\ requests (exec (destroy this) s) = requests s
  /\ requests (exec (loadCaptions this "A" None) s) = requests s.
Proof.
  intros this s.
  destruct (unregistered_node_sends_nothing s this eq_refl)
    as (Hu & Hs & Hd & Hl).
  split; [apply Hu |]. split; [exact Hs |]. split; [exact Hd | apply Hl].
Defined.


(** ** Skipping through a queue *)

Lemma skipTrack_step (s : State) (this : Player) (p : PlayerState)
    (x : string) (q : list string) (n : Node) :
  queue (Config s) = true ->
  Players s !! this_guildId this = Some p ->
  pl_queue p = Some (x :: q) ->
  lookupNode (default "undefined" (this_node this)) (Nodes s) = Some n ->
  exec (skipTrack this) s
  = sent (requestTo n (playerPath n (this_guildId this))
            (Some (trackBody (head q))) PATCH)
      (setPlayers (<[this_guildId this := withQueue q p]> (Players s)) s).
Proof.
  destruct s as [[bot sh qu dbg] ns ps ids rq em], this as [g nd],
    p as [pc pp pa pv pn pq pt].
  simpl. intros -> Hp -> Hn.
  cbv beta iota delta [from_option id] in Hn.
  run_hyps. reflexivity.
Qed.

(** X10: skipping as many times as the queue is long empties the queue and
    sends exactly one PATCH of the player per skip, each naming the track
    that has become the head, the last one naming none; the next
    [skipTrack] answers [skipped: false] and changes nothing. *)
Theorem skipTrack_drains (s : State) (this : Player) (p : PlayerState)
    (q : list string) (n : Node) :
  queue (Config s) = true ->
  Players s !! this_guildId this = Some p ->
  pl_queue p = Some q ->
  lookupNode (default "undefined" (this_node this)) (Nodes s) = Some n ->
  let patch (t : option (option string)) :=
    {| url := "http" +:+ (if secure n then "s" else "") +:+ "://"
              +:+ hostname n +:+ "/v4/sessions/"
              +:+ default "null" (sessionId n) +:+ "/players/"
              +:+ this_guildId this;
       authorization := Some (password n);
       body := Some {| encodedTrack := t; encodedTracks := None;
                       b_paused := None; b_volume := None; voice := None |};
       rq_port := Some (port n); method := PATCH |} in
  let s' := performAll (replicate (length q) (CallSkipTrack this)) s in
  pl_queue <$> (Players s' !! this_guildId this) = Some (Some [])
  /\ requests s'
     = requests s
       ++ match q with
          | [] => []
          | _ :: rest =>
              map (fun t => patch (Some (Some t))) rest ++ [patch None]
          end
  /\ skipTrack this s'
     = (Ok {| skipped := false; sk_queue := [];
              sk_error := Some "No tracks in queue." |}, s').
Proof.
  intros Hq Hp Hpq Hn patch. revert s p Hq Hp Hpq Hn.
  induction q as [| x q IH]; intros s p Hq Hp Hpq Hn; simpl.
  - rewrite Hp. simpl. rewrite Hpq. split; [reflexivity |].
    split; [rewrite app_nil_r; reflexivity |].
    destruct s as [[bot sh qu dbg] ns ps ids rq em], this as [g nd],
      p as [pc pp pa pv pn pq pt].
    simpl in *. subst. run_hyps. reflexivity.
  - rewrite (skipTrack_step s this p x q n Hq Hp Hpq Hn).
    match goal with
    | |- context [performAll _ ?s1] =>
        destruct (IH s1 (withQueue q p)) as (H1 & H2 & H3)
    end; try assumption; try reflexivity.
    + simpl. apply lookup_insert_eq.
    + split; [exact H1 |]. split; [| exact H3].
      rewrite H2. cbn [requests sent].
      rewrite requestTo_player_plain, <- app_assoc.
      destruct q; reflexivity.
Qed.

Lemma skipTrack_drains_sample :
  let this := {| this_guildId := "g"; this_node := Some "a.example" |} in
  let patch (t : option (option string)) :=
    {| url := "http://a.example/v4/sessions/sess-a/players/g";
       authorization := Some "pw-a";
       body := Some {| encodedTrack := t; encodedTracks := None;
                       b_paused := None; b_volume := None; voice := None |};
       rq_port := Some 2333%Z; method := PATCH |} in
  let s' :=
    performAll (replicate 3 (CallSkipTrack this))
      (Sample.withQueued ["A"; "B"; "C"]) in
  pl_queue <$> (Players s' !! "g") = Some (Some [])
  /\ requests s'
     = [patch (Some (Some "B")); patch (Some (Some "C")); patch None]
  /\ skipTrack this s'
     = (Ok {| skipped := false; sk_queue := [];
              sk_error := Some "No tracks in queue." |}, s').
Proof.
  intros this.
  apply (skipTrack_drains (Sample.withQueued ["A"; "B"; "C"]) this
           (Sample.queued ["A"; "B"; "C"]) ["A"; "B"; "C"] Sample.nodeA);
    reflexivity.
Defined.
(** ** Events for a guild without a player, and last tracks *)

(** X11: an end or exception event for a guild without a player is dropped:
    the handler returns [undefined], sends nothing and touches no table
    ([trackException] only emits its debug line). *)
Theorem handlers_ignore_unknown_guild (s : State) (payload : Payload)
    (node : string) :
  Players s !! guildId payload = None ->
  trackEnd payload node s = (Ok ReturnedUndefined, s)
  /\ trackException payload node s
     = (Ok ReturnedUndefined,
        told (EmDebug ("[FastLink] " +:+ node
                       +:+ " has received a track exception")) s).
Proof.
  destruct s as [cfg ns ps ids rq em], payload as [g r t]. simpl.
  intros Hp. split; run_hyps; reflexivity.
Qed.

Lemma handlers_ignore_unknown_guild_sample :
  trackEnd (Sample.ended "finished") "a.example" (Sample.initial true)
  = (Ok ReturnedUndefined, Sample.initial true)
  /\ trackException (Sample.ended "finished") "a.example" (Sample.initial true)
     = (Ok ReturnedUndefined,
        told (EmDebug "[FastLink] a.example has received a track exception")
          (Sample.initial true)).
Proof.
  apply (handlers_ignore_unknown_guild (Sample.initial true)
           (Sample.ended "finished") "a.example").
  reflexivity.
Defined.



(** X13: in queue mode [trackException] removes the head of the queue (if
    any) whatever the payload says, "replaced" included. *)
Theorem trackException_always_pops (s : State) (payload : Payload)
    (node : string) (p : PlayerState) (q : list string) :
  queue (Config s) = true ->
  Players s !! guildId payload = Some p ->
  pl_queue p = Some q ->
  pl_queue <$> (Players (exec (trackException payload node) s)
                  !! guildId payload)
  = Some (Some (tail q)).
Proof.
  destruct s as [[bot sh qu dbg] ns ps ids rq em], payload as [g r t],
    p as [pc pp pa pv pn pq pt].
  simpl. intros -> Hp ->. crush.
Qed.

Lemma trackException_always_pops_sample :
  pl_queue <$> (Players (exec (trackException (Sample.ended "replaced")
                                 "a.example")
                           (Sample.withQueued ["A"; "B"])) !! "g")
  = Some (Some ["B"]).
Proof.
  apply (trackException_always_pops (Sample.withQueued ["A"; "B"])
           (Sample.ended "replaced") "a.example"
           (Sample.queued ["A"; "B"]) ["A"; "B"]); reflexivity.
Defined.

(** ** Gateway payloads *)

(** X14: [handleRaw] never throws (for a voice-server notification: on a
    non-empty guild id) and never touches the configuration, the registry,
    the players or the emitted events; of the pending sessions it can change
    only the entry of the notification's own guild. *)
Theorem handleRaw_is_contained (s : State) (data : RawData) :
  (forall g tok endp, data = VOICE_SERVER_UPDATE g tok endp -> truthy g = true) ->
  let s' := exec (handleRaw data) s in
  fst (handleRaw data s) = Ok tt
  /\ Config s' = Config s
  /\ Nodes s' = Nodes s
  /\ Players s' = Players s
  /\ emitted s' = emitted s
  /\ (forall g', Some g' <> guildOf (CallHandleRaw data) ->
        sessionIds s' !! g' = sessionIds s !! g').
Proof.
  destruct s as [[bot sh qu dbg] ns ps ids rq em]. intros Hg.
  destruct data as [g tok endp | g sid uid | t]; simpl.
  - specialize (Hg g tok endp eq_refl).
    destruct (ids !! g) as [sid |] eqn:Hsid;
      [| run_hyps; repeat split; reflexivity].
    destruct (truthy sid) eqn:Ht; [| run_hyps; repeat split; reflexivity].
    destruct (ps !! g) as [[pc pp pa pv pn pq pt] |] eqn:Hp;
      [| run_hyps; repeat split; reflexivity].
    destruct (lookupNode pn ns) as [n |] eqn:Hn; run_hyps;
      (repeat split; try reflexivity);
      intros g' Hne; simpl; apply lookup_delete_ne; congruence.
  - destruct (String.eqb uid bot) eqn:E; run_hyps;
      repeat split; try reflexivity.
    intros g' Hne. simpl. apply lookup_insert_ne. congruence.
  - repeat split; reflexivity.
Qed.

Lemma handleRaw_is_contained_sample :
  let data := VOICE_SERVER_UPDATE "g" "tok" "eu.example" in
  let s := exec (handleRaw (VOICE_STATE_UPDATE "g" "v1" "bot"))
             (Sample.withQueued ["A"]) in
  let s' := exec (handleRaw data) s in
  fst (handleRaw data s) = Ok tt
  /\ Config s' = Config s
  /\ Nodes s' = Nodes s
  /\ Players s' = Players s
  /\ emitted s' = emitted s
  /\ (forall g', Some g' <> Some "g" ->
        sessionIds s' !! g' = sessionIds s !! g').
Proof.
  intros data s.
  apply (handleRaw_is_contained s data).
  intros g tok endp [= <- _ _]. reflexivity.
Defined.


(** ** Node queries *)

(** X15: each of [getPlayers], [getInfo], [getStats], [getVersion],
    [getRouterPlannerStatus] and [unmarkAllFailedAddresses] throws
    "No node provided." on an empty name, sending nothing.  On a registered
    node it sends exactly one GET, without a body, to an address on that
    node's host, with that node's password and port, and changes nothing
    else.  On an unregistered name it throws "Node does not exist." and
    sends nothing, unless the name is one every object inherits (such as
    [constructor]): the check lets those through, and one GET without
    password and port goes to the host [undefined]. *)
Theorem node_queries (s : State) (node : string) (f : string -> M unit) :
  f ∈ [getPlayers; getInfo; getStats; getVersion; getRouterPlannerStatus;
       unmarkAllFailedAddresses] ->
  let after (r : Request) :=
    {| Config := Config s; Nodes := Nodes s; Players := Players s;
       sessionIds := sessionIds s; requests := requests s ++ [r];
       emitted := emitted s |} in
  f "" s = (Throw (Error "No node provided."), s)
  /\
  (truthy node = true -> lookupNode node (Nodes s) = None ->
   inherited node = false ->
   f node s = (Throw (Error "Node does not exist."), s))
  /\
  (forall n,
     truthy node = true -> lookupNode node (Nodes s) = Some n ->
     exists path,
       f node s
       = (Ok tt,
          after {| url := "http" +:+ (if secure n then "s" else "") +:+ "://"
                          +:+ hostname n +:+ path;
                   authorization := Some (password n); body := None;
                   rq_port := Some (port n); method := GET |}))
  /\
  (lookupNode node (Nodes s) = None -> inherited node = true ->
   exists path,
     f node s
     = (Ok tt,
        after {| url := "http://undefined" +:+ path; authorization := None;
                 body := None; rq_port := None; method := GET |})).
Proof.
  intros Hf.
  assert (exists endpoint, f = nodeGet endpoint) as [endpoint ->].
  { repeat (apply elem_of_cons in Hf as [-> | Hf]; [eexists; reflexivity |]).
    inversion Hf. }
  destruct s as [cfg ns ps ids rq em]. simpl.
  split; [reflexivity |]. split; [| split].
  - intros Ht Hn Hi. unfold nodeGet. run_hyps. reflexivity.
  - intros n Ht Hn. exists (endpoint (render (sessionId n))).
    unfold nodeGet. run_hyps. unfold origin.
    rewrite ?append_assoc. reflexivity.
  - intros Hn Hi. exists (endpoint "undefined").
    assert (truthy node = true) as Ht.
    { destruct node; [discriminate | reflexivity]. }
    unfold nodeGet. run_hyps. reflexivity.
Qed.

Lemma node_queries_sample :
  let after (r : Request) :=
    {| Config := Sample.settings true; Nodes := Sample.registry;
       Players := ∅; sessionIds := sessionIds (Sample.initial true);
       requests := [r]; emitted := [] |} in
  getVersion "" (Sample.initial true)
  = (Throw (Error "No node provided."), Sample.initial true)
  /\ getVersion "z.example" (Sample.initial true)
     = (Throw (Error "Node does not exist."), Sample.initial true)
  /\ (exists path,
        getVersion "b.example" (Sample.initial true)
        = (Ok tt,
           after {| url := "https://b.example" +:+ path;
                    authorization := Some "pw-b"; body := None;
                    rq_port := Some 443%Z; method := GET |}))
  /\ (exists path,
        getVersion "constructor" (Sample.initial true)
        = (Ok tt,
           after {| url := "http://undefined" +:+ path;
                    authorization := None; body := None; rq_port := None;
                    method := GET |})).
Proof.
  assert (getVersion ∈ [getPlayers; getInfo; getStats; getVersion;
                        getRouterPlannerStatus; unmarkAllFailedAddresses])
    as Hin by (do 3 right; left).
  intros after. split; [| split; [| split]].
  - apply (proj1 (node_queries (Sample.initial true) "b.example" getVersion
                    Hin)).
  - apply (proj1 (proj2 (node_queries (Sample.initial true) "z.example"
                           getVersion Hin))); reflexivity.
  - apply (proj1 (proj2 (proj2 (node_queries (Sample.initial true) "b.example"
                                  getVersion Hin))) Sample.nodeB);
      reflexivity.
  - apply (proj2 (proj2 (proj2 (node_queries (Sample.initial true)
                                  "constructor" getVersion Hin))));
      reflexivity.
Defined.

(** The addresses of the six queries, on the sample registry. *)
Example node_query_addresses :
  let urls (f : string -> M unit) (node : string) :=
    url <$> requests (exec (f node) (Sample.initial true)) in
  urls getPlayers "a.example"
  = ["http://a.example/v4/sessions/sess-a/players"]
  /\ urls getInfo "a.example" = ["http://a.example/v4/info"]
  /\ urls getStats "a.example" = ["http://a.example/v4/stats"]
  /\ urls getVersion "b.example" = ["https://b.example/version"]
  /\ urls getRouterPlannerStatus "a.example"
     = ["http://a.example/v4/routerplanner/status"]
  /\ urls unmarkAllFailedAddresses "a.example"
     = ["http://a.example/v4/routeplanner/free/all"]
  /\ urls getInfo "constructor" = ["http://undefined/v4/info"]
  /\ urls getPlayers "toString"
     = ["http://undefined/v4/sessions/undefined/players"].
Proof. repeat split; reflexivity. Qed.

(** ** Destroy *)

(** X16: [destroy] throws a [TypeError] and changes nothing when the object's
    node is not registered or the node entry has no [players] table;
    otherwise it nulls the guild's slot in that node's table, leaves every
    other node entry and the player table alone, and sends exactly one
    request, a DELETE of the player on that node without a body. *)
Theorem destroy_spec (s : State) (this : Player) :
  let k := default "undefined" (this_node this) in
  let g := this_guildId this in
  (lookupNode k (Nodes s) = None -> destroy this s = (Throw TypeError, s))
  /\
  (forall n,
     lookupNode k (Nodes s) = Some n -> nd_players n = None ->
     destroy this s = (Throw TypeError, s))
  /\
  (forall n slots,
     lookupNode k (Nodes s) = Some n -> nd_players n = Some slots ->
     let n' :=
       {| hostname := hostname n; password := password n; secure := secure n;
          port := port n; connected := connected n; sessionId := sessionId n;
          stats := stats n; nd_players := Some (<[g := None]> slots) |} in
     destroy this s
     = (Ok tt,
        {| Config := Config s; Nodes := storeNode k n' (Nodes s);
           Players := Players s; sessionIds := sessionIds s;
           requests :=
             requests s
             ++ [{| url := "http" +:+ (if secure n then "s" else "") +:+ "://"
                           +:+ hostname n +:+ "/v4/sessions/"
                           +:+ default "null" (sessionId n)
                           +:+ "/players/" +:+ g;
                    authorization := Some (password n); body := None;
                    rq_port := Some (port n); method := DELETE |}];
           emitted := emitted s |})
     /\ lookupNode k (storeNode k n' (Nodes s)) = Some n'
     /\ (forall k', k' <> k ->
           lookupNode k' (storeNode k n' (Nodes s))
           = lookupNode k' (Nodes s))).
Proof.
  destruct s as [cfg ns ps ids rq em], this as [g nd]. simpl.
  cbv beta iota zeta delta [from_option id].
  split; [| split].
  - intros Hn. run_hyps. reflexivity.
  - intros n Hn Hs. run_hyps. reflexivity.
  - intros n slots Hn Hs.
    pose proof (lookupNode_storeNode_eq _
      {| hostname := hostname n; password := password n; secure := secure n;
         port := port n; connected := connected n; sessionId := sessionId n;
         stats := stats n; nd_players := Some (<[g := None]> slots) |}
      _ _ Hn) as Hk.
    split; [| split; [exact Hk |]].
    + run_hyps. rewrite requestTo_player_plain. reflexivity.
    + intros k' Hne. apply lookupNode_storeNode_ne, Hne.
Qed.

Lemma destroy_spec_sample :
  let this := {| this_guildId := "g"; this_node := Some "a.example" |} in
  let n' :=
    {| hostname := "a.example"; password := "pw-a"; secure := false;
       port := 2333%Z; connected := true; sessionId := Some "sess-a";
       stats := Some {| systemLoad := 0.5; cores := 4 |};
       nd_players := Some (<["g" := None]> ∅) |} in
  destroy {| this_guildId := "g"; this_node := None |} (Sample.withQueued [])
  = (Throw TypeError, Sample.withQueued [])
  /\
  (destroy this (Sample.withQueued [])
   = (Ok tt,
      {| Config := Sample.settings true;
         Nodes := [("c.example", Sample.nodeC); ("a.example", n');
                   ("b.example", Sample.nodeB)];
         Players := Players (Sample.withQueued []);
         sessionIds := sessionIds (Sample.withQueued []);
         requests :=
           [{| url := "http://a.example/v4/sessions/sess-a/players/g";
               authorization := Some "pw-a"; body := None;
               rq_port := Some 2333%Z; method := DELETE |}];
         emitted := [] |})
   /\ lookupNode "a.example" (storeNode "a.example" n' Sample.registry)
      = Some n'
   /\ (forall k', k' <> "a.example" ->
         lookupNode k' (storeNode "a.example" n' Sample.registry)
         = lookupNode k' Sample.registry)).
Proof.
  intros this n'. split.
  - apply (proj1 (destroy_spec (Sample.withQueued [])
                    {| this_guildId := "g"; this_node := None |})).
    reflexivity.
  - apply (proj2 (proj2 (destroy_spec (Sample.withQueued []) this))
             Sample.nodeA ∅); reflexivity.
Defined.

(** ** Registration *)

Lemma registerNode_valid n s :
  validNode n ->
  registerNode n s
  = (Ok tt, setNodes (storeNode (hostname n) (registered n) (Nodes s)) s).
Proof. intros [Hh Hp]. unfold registerNode. rewrite Hh, Hp. reflexivity. Qed.






(** X18: [connectNodes] stops at the first node object without a host name
    or password: it throws there, and what it did before stays, which is
    the new configuration and the entries of the nodes listed earlier. *)
Theorem connectNodes_stops_at_bad_node (s : State) (good rest : list Node)
    (bad : Node) (c : config) :
  truthy (botId c) = true ->
  shards c <> 0%Z ->
  Forall validNode good ->
  ~ validNode bad ->
  connectNodes (good ++ bad :: rest) c s
  = (Throw (Error (if truthy (hostname bad) then "No password provided."
                   else "No hostname provided.")),
     exec (connectNodes good c) s).
Proof.
  intros Hb Hs Hv Hbad.
  assert (forall s0, forEach registerNode (good ++ bad :: rest) s0
            = (Throw (Error (if truthy (hostname bad)
                             then "No password provided."
                             else "No hostname provided.")),
               exec (forEach registerNode good) s0)) as Hloop.
  { clear - Hv Hbad. induction Hv as [| n good Hn _ IH]; intros s0.
    - simpl. cbv beta iota delta [mbind M_bind]. unfold registerNode, validNode in *.
      destruct (truthy (hostname bad)); simpl; [| reflexivity].
      destruct (truthy (password bad)); simpl; [| reflexivity].
      exfalso. auto.
    - simpl. unfold exec. cbv beta iota delta [mbind M_bind].
      rewrite (registerNode_valid n s0 Hn). apply IH. }
  unfold connectNodes, exec. rewrite Hb.
  destruct (Z.eqb (shards c) 0) eqn:E; [apply Z.eqb_eq in E; contradiction |].
  cbv beta iota delta [negb mbind M_bind get put].
  rewrite Hloop. reflexivity.
Qed.

Lemma connectNodes_stops_at_bad_node_sample :
  let bad :=
    {| hostname := ""; password := "pw"; secure := false; port := 0%Z;
       connected := false; sessionId := None;
       stats := None; nd_players := None |} in
  let s := setNodes [] (Sample.initial false) in
  connectNodes ([Sample.nodeA] ++ bad :: [Sample.nodeB])
    (Sample.settings true) s
  = (Throw (Error "No hostname provided."),
     exec (connectNodes [Sample.nodeA] (Sample.settings true)) s).
Proof.
  intros bad s.
  apply (connectNodes_stops_at_bad_node s [Sample.nodeA] [Sample.nodeB] bad
           (Sample.settings true)).
  - reflexivity.
  - discriminate.
  - repeat constructor.
  - intros [H _]. discriminate.
Defined.

Lemma forEach_preserves {A} (P : State -> Prop) (f : A -> M unit)
    (l : list A) :
  (forall x s, P s -> P (exec (f x) s)) ->
  forall s, P s -> P (exec (forEach f l) s).
Proof.
  intros Hf. induction l as [| x l IH]; intros s Hs; [exact Hs |].
  simpl. unfold exec. cbv beta iota delta [mbind M_bind].
  specialize (Hf x s Hs). unfold exec in Hf.
  destruct (f x s) as [[[] | e] s1]; simpl in *; [apply IH |]; exact Hf.
Qed.

Lemma registerNode_allDisconnected n s :
  allDisconnected s -> allDisconnected (exec (registerNode n) s).
Proof.
  intros H. unfold registerNode, exec.
  destruct (truthy (hostname n)); simpl; [| exact H].
  destruct (truthy (password n)); simpl; [| exact H].
  intros m Hm. simpl in Hm. apply values_storeNode in Hm as [-> | Hm];
    [reflexivity | apply H, Hm].
Qed.

(** X19: [connectNodes] never marks a node connected: if no registered node
    is connected before the call, none is after it, whatever the arguments
    and whether or not it throws, so node selection still fails with
    "No node connected." *)
Theorem connectNodes_never_connects (s : State) (nodes : list Node)
    (c : config) :
  allDisconnected s ->
  let s' := exec (connectNodes nodes c) s in
  allDisconnected s'
  /\ Selection.anyNodeAvailable (Nodes s') = false
  /\ Selection.getRecommendedNode (Nodes s')
     = Throw (Error "No node connected.").
Proof.
  intros H.
  assert (allDisconnected (exec (connectNodes nodes c) s)) as H'.
  { unfold connectNodes, exec.
    destruct (truthy (botId c)); simpl; [| exact H].
    destruct (Z.eqb (shards c) 0); simpl; [exact H |].
    cbv beta iota delta [mbind M_bind get put].
    apply (forEach_preserves allDisconnected registerNode nodes
             registerNode_allDisconnected).
    exact H. }
  split; [exact H' |].
  pose proof (no_connected_no_recommendation _ H') as Hsel.
  split; [| exact Hsel].
  apply unavailable_iff_throws. exact Hsel.
Qed.

Lemma connectNodes_never_connects_sample :
  let s' :=
    exec (connectNodes [Sample.nodeA; Sample.nodeB] (Sample.settings true))
      (setNodes [] (Sample.initial false)) in
  allDisconnected s'
  /\ Selection.anyNodeAvailable (Nodes s') = false
  /\ Selection.getRecommendedNode (Nodes s')
     = Throw (Error "No node connected.").
Proof.
  apply (connectNodes_never_connects (setNodes [] (Sample.initial false))
           [Sample.nodeA; Sample.nodeB] (Sample.settings true)).
  intros m Hm. inversion Hm.
Defined.

(** * Frames and invariants of the commands *)

Section Preservation.

Variable R : State -> State -> Prop.
(** The guilds whose player may be written, and the updates allowed. *)
Variable okg : string -> Prop.
Variable okf : (PlayerState -> PlayerState) -> Prop.

Hypothesis R_refl : forall s, R s s.
Hypothesis R_trans : forall s1 s2 s3, R s1 s2 -> R s2 s3 -> R s1 s3.
Hypothesis R_request : forall s r,
  R s {| Config := Config s; Nodes := Nodes s; Players := Players s;
         sessionIds := sessionIds s; requests := requests s ++ [r];
         emitted := emitted s |}.
Hypothesis R_emit : forall s e,
  R s {| Config := Config s; Nodes := Nodes s; Players := Players s;
         sessionIds := sessionIds s; requests := requests s;
         emitted := emitted s ++ [e] |}.
Hypothesis R_slot : forall s k n slots g,
  lookupNode k (Nodes s) = Some n ->
  nd_players n = Some slots ->
  R s (setNodes
         (storeNode k
            {| hostname := hostname n; password := password n;
               secure := secure n; port := port n; connected := connected n;
               sessionId := sessionId n; stats := stats n;
               nd_players := Some (<[g := None]> slots) |}
            (Nodes s)) s).
Hypothesis R_sessions : forall s ids, R s (setSessionIds ids s).
Hypothesis R_assign : forall s g p f,
  okg g -> okf f -> Players s !! g = Some p ->
  R s (setPlayers (<[g := f p]> (Players s)) s).
Hypothesis R_fresh : forall s g p,
  okg g -> Players s !! g = None ->
  R s (setPlayers (<[g := p]> (Players s)) s).
Hypothesis okf_withQueue : forall q, okf (withQueue q).
Hypothesis okf_withTrack : forall t, okf (withTrack t).
Hypothesis okf_withPaused : forall b, okf (withPaused b).
Hypothesis okf_stopped : okf stopped.

Lemma pa_ret {A} (a : A) s : preservesAt R s (mret a).
Proof. apply R_refl. Qed.

Lemma pa_throw {A} (e : error) s : preservesAt R s (@throw A e).
Proof. apply R_refl. Qed.

Lemma pa_get_bind {B} (f : State -> M B) s :
  preservesAt R s (f s) -> preservesAt R s (get ≫= f).
Proof. intros H. exact H. Qed.

Lemma pa_bind {A B} (m : M A) (f : A -> M B) s :
  preservesAt R s m -> (forall a s', preservesAt R s' (f a)) ->
  preservesAt R s (m ≫= f).
Proof.
  unfold preservesAt, exec. intros Hm Hf.
  cbv beta iota delta [mbind M_bind].
  specialize (Hf) .
  destruct (m s) as [[a | e] s'] eqn:E; simpl in *.
  - eapply R_trans; [exact Hm | apply Hf].
  - exact Hm.
Qed.

Lemma pa_bind_eq {A B} (m : M A) (f : A -> M B) s :
  preservesAt R s m ->
  (forall a s', m s = (Ok a, s') -> preservesAt R s' (f a)) ->
  preservesAt R s (m ≫= f).
Proof.
  unfold preservesAt, exec. intros Hm Hf.
  cbv beta iota delta [mbind M_bind].
  destruct (m s) as [[a | e] s'] eqn:E; simpl in *.
  - eapply R_trans; [exact Hm | apply Hf; reflexivity].
  - exact Hm.
Qed.

Lemma pa_notAwaited {A} (m : M A) s :
  preservesAt R s m -> preservesAt R s (notAwaited m).
Proof. intros H. exact H. Qed.

Lemma pa_utils_makeRequest r s : preservesAt R s (utils_makeRequest r).
Proof. apply R_request. Qed.

Lemma pa_emit e s : preservesAt R s (emit e).
Proof. apply R_emit. Qed.

Lemma pa_nodeOf k s : preservesAt R s (nodeOf k).
Proof.
  unfold nodeOf. apply pa_get_bind.
  destruct (lookupNode _ _); [apply pa_ret | apply pa_throw].
Qed.

Lemma pa_playerOf g s : preservesAt R s (playerOf g).
Proof.
  unfold playerOf. apply pa_get_bind.
  destruct (Players s !! g); [apply pa_ret | apply pa_throw].
Qed.

Lemma pa_queueOf g s : preservesAt R s (queueOf g).
Proof.
  unfold queueOf. apply pa_bind; [apply pa_playerOf |].
  intros p s'. destruct (pl_queue p); [apply pa_ret | apply pa_throw].
Qed.

Lemma pa_assignPlayer g f s :
  okg g -> okf f -> preservesAt R s (assignPlayer g f).
Proof.
  intros Hg Hf. unfold assignPlayer, preservesAt, exec.
  cbv beta iota delta [mbind M_bind playerOf get put mret M_ret throw].
  destruct (Players s !! g) as [p |] eqn:E; simpl.
  - apply R_assign; assumption.
  - apply R_refl.
Qed.

Lemma pa_makeRequest this path b m s :
  preservesAt R s (makeRequest this path b m).
Proof.
  unfold makeRequest. apply pa_bind; [apply pa_nodeOf |].
  intros n s'. apply pa_utils_makeRequest.
Qed.

(** Reduce a goal on composed code to goals on its parts. *)
Ltac pa_step :=
  lazymatch goal with
  | |- preservesAt _ _ (get ≫= _) => apply pa_get_bind
  | |- preservesAt _ _ (_ ≫= _) => apply pa_bind_eq; [| intros ? ? ?]
  | |- preservesAt _ _ (mret _) => apply pa_ret
  | |- preservesAt _ _ (throw _) => apply pa_throw
  | |- preservesAt _ _ (notAwaited _) => apply pa_notAwaited
  | |- preservesAt _ _ (utils_makeRequest _) => apply pa_utils_makeRequest
  | |- preservesAt _ _ (emit _) => apply pa_emit
  | |- preservesAt _ _ (nodeOf _) => apply pa_nodeOf
  | |- preservesAt _ _ (playerOf _) => apply pa_playerOf
  | |- preservesAt _ _ (queueOf _) => apply pa_queueOf
  | |- preservesAt _ _ (makeRequest _ _ _ _) => apply pa_makeRequest
  | |- preservesAt _ _ (newPlayer _) => unfold newPlayer
  | |- preservesAt _ _ (assignPlayer _ _) =>
      apply pa_assignPlayer; [assumption | solve [auto]]
  | |- preservesAt _ _ (put (setSessionIds _ _)) => apply R_sessions
  | |- preservesAt _ _ (put (setPlayers (<[_ := _]> _) _)) =>
      apply R_fresh; assumption
  | |- preservesAt _ _ (if ?c then _ else _) => destruct c eqn:?
  | |- preservesAt _ _ (match ?x with _ => _ end) => destruct x eqn:?
  end.

Ltac pa := repeat pa_step.

Lemma pa_update this b nr s :
  okg (this_guildId this) -> preservesAt R s (update this b nr).
Proof. intros Hg. unfold update, update_encodedTrack. pa. Qed.

Lemma pa_createPlayer this s :
  okg (this_guildId this) -> preservesAt R s (createPlayer this).
Proof. intros Hg. unfold createPlayer. pa. Qed.

Lemma nodeOf_Ok k s n s' :
  nodeOf k s = (Ok n, s') ->
  s' = s /\ lookupNode (propertyKey k) (Nodes s) = Some n.
Proof.
  unfold nodeOf. cbv beta iota delta [mbind M_bind get mret M_ret throw].
  destruct (lookupNode (propertyKey k) (Nodes s)); intros [= <- <-]; auto.
Qed.

Lemma pa_destroy this s : preservesAt R s (destroy this).
Proof.
  unfold destroy. apply pa_bind_eq; [apply pa_nodeOf |].
  intros n s' Hn. apply nodeOf_Ok in Hn as [-> Hn].
  destruct (nd_players n) as [slots |] eqn:Hslots; [| apply pa_throw].
  apply pa_get_bind. apply pa_bind_eq; [| intros; pa].
  apply R_slot; assumption.
Qed.

Lemma pa_skipTrack this s :
  okg (this_guildId this) -> preservesAt R s (skipTrack this).
Proof. intros Hg. unfold skipTrack. pa. Qed.

Lemma pa_getQueue this s : preservesAt R s (getQueue this).
Proof. unfold getQueue. pa. Qed.

Lemma pa_loadCaptions this t lang s :
  preservesAt R s (loadCaptions this t lang).
Proof. unfold loadCaptions. pa. Qed.

Lemma pa_nodeGet endpoint node s : preservesAt R s (nodeGet endpoint node).
Proof. unfold nodeGet. pa. Qed.

Lemma pa_trackEnd payload node s :
  okg (guildId payload) -> preservesAt R s (trackEnd payload node).
Proof. intros Hg. unfold trackEnd. pa. Qed.

Lemma pa_trackException payload node s :
  okg (guildId payload) -> preservesAt R s (trackException payload node).
Proof. intros Hg. unfold trackException, utils_makeNodeRequest. pa. Qed.

Lemma pa_handleRaw data s :
  (forall g, guildOf (CallHandleRaw data) = Some g -> okg g) ->
  preservesAt R s (handleRaw data).
Proof.
  intros Hg. unfold handleRaw, playerCreated.
  destruct data as [g tok endp | g sid uid | t]; pa.
  match goal with
  | Hnew : newPlayer g _ = (Ok ?this, _) |- _ =>
      assert (this_guildId this = g) as Hthis
        by (revert Hnew; unfold newPlayer;
            cbv beta iota delta [mbind M_bind get mret M_ret throw];
            destruct (negb (truthy g)); intros [= <- _]; reflexivity)
  end.
  apply pa_update. apply Hg. simpl. congruence.
Qed.

(** Every call is covered. *)
Lemma pa_perform c s :
  (forall g, guildOf c = Some g -> okg g) -> R s (perform c s).
Proof.
  intros Hg.
  destruct c; simpl in *;
    first [ apply pa_createPlayer | apply pa_update | apply pa_destroy
          | apply pa_skipTrack | apply pa_getQueue | apply pa_loadCaptions
          | apply pa_nodeGet | apply pa_trackEnd | apply pa_trackException
          | apply pa_handleRaw ];
    auto.
Qed.

End Preservation.

(** ** Players are never dropped or moved *)

Lemma keepsPlayers_refl s : keepsPlayers s s.
Proof. split; [reflexivity |]. intros g p Hp. exists p. auto. Qed.

Lemma keepsPlayers_trans s1 s2 s3 :
  keepsPlayers s1 s2 -> keepsPlayers s2 s3 -> keepsPlayers s1 s3.
Proof.
  intros [Hc1 H1] [Hc2 H2]. split; [congruence |].
  intros g p Hp.
  destruct (H1 g p Hp) as (p2 & Hp2 & Hn2 & Hq2).
  destruct (H2 g p2 Hp2) as (p3 & Hp3 & Hn3 & Hq3).
  exists p3. split; [exact Hp3 |]. split; [congruence | auto].
Qed.

Lemma keepsPlayers_same s s' :
  Config s' = Config s -> Players s' = Players s -> keepsPlayers s s'.
Proof.
  intros Hc Hp. split; [exact Hc |]. intros g p Hg. rewrite Hp. eauto.
Qed.

Lemma perform_keepsPlayers c s : keepsPlayers s (perform c s).
Proof.
  apply (pa_perform keepsPlayers (fun _ => True) gentle);
    try (intros; exact I).
  - apply keepsPlayers_refl.
  - apply keepsPlayers_trans.
  - intros s0 r. apply keepsPlayers_same; reflexivity.
  - intros s0 e. apply keepsPlayers_same; reflexivity.
  - intros s0 k n slots g _ _. apply keepsPlayers_same; reflexivity.
  - intros s0 ids. apply keepsPlayers_same; reflexivity.
  - intros s0 g p f _ Hf Hp. split; [reflexivity |].
    intros g' p' Hp'. simpl.
    destruct (decide (g = g')) as [<- | Hne].
    + rewrite lookup_insert_eq. exists (f p).
      assert (p' = p) as -> by congruence.
      split; [reflexivity | apply Hf].
    + rewrite lookup_insert_ne by exact Hne. exists p'. auto.
  - intros s0 g p _ Hp. split; [reflexivity |].
    intros g' p' Hp'. simpl.
    destruct (decide (g = g')) as [<- | Hne]; [congruence |].
    rewrite lookup_insert_ne by exact Hne. exists p'. auto.
  - intros q p. simpl. eauto.
  - intros t p. simpl. auto.
  - intros b p. simpl. auto.
  - intros p. simpl. auto.
Qed.

(** X20: whatever calls are made, in whatever order and whether or not they
    throw, every player that exists stays registered, stays on its node
    and keeps its queue if it has one, and the configuration is not
    touched. *)
Theorem performAll_keepsPlayers (cs : list Call) (s : State) :
  keepsPlayers s (performAll cs s).
Proof.
  revert s. induction cs as [| c cs IH]; intros s; simpl.
  - apply keepsPlayers_refl.
  - eapply keepsPlayers_trans; [apply perform_keepsPlayers | apply IH].
Qed.

(** ** The registry is left alone *)

Lemma sameRegistry_same s s' : Nodes s' = Nodes s -> sameRegistry s s'.
Proof. unfold sameRegistry. intros ->. reflexivity. Qed.

Lemma sameRegistry_trans s1 s2 s3 :
  sameRegistry s1 s2 -> sameRegistry s2 s3 -> sameRegistry s1 s3.
Proof. unfold sameRegistry. congruence. Qed.

(** Overwriting an entry with one of the same core keeps the registry. *)
Lemma storeNode_same_core k n n' ns :
  lookupNode k ns = Some n -> core n' = core n ->
  map (fun kn => (fst kn, core (snd kn))) (storeNode k n' ns)
  = map (fun kn => (fst kn, core (snd kn))) ns.
Proof.
  intros Hk Hc. unfold storeNode. rewrite Hk.
  induction ns as [| [k0 m] ns IH]; simpl in *; [discriminate |].
  destruct (String.eqb k0 k) eqn:E; simpl.
  - injection Hk as ->. rewrite Hc. reflexivity.
  - rewrite (IH Hk). reflexivity.
Qed.

Lemma perform_sameRegistry c s : sameRegistry s (perform c s).
Proof.
  apply (pa_perform sameRegistry (fun _ => True) (fun _ => True));
    try (intros; exact I); try (intros; apply sameRegistry_same; reflexivity).
  - apply sameRegistry_trans.
  - intros s0 k n slots g Hk Hslots. unfold sameRegistry. simpl.
    apply storeNode_same_core with (n := n); [exact Hk | reflexivity].
Qed.

Lemma performAll_sameRegistry cs s : sameRegistry s (performAll cs s).
Proof.
  revert s. induction cs as [| c cs IH]; intros s; simpl.
  - apply sameRegistry_same. reflexivity.
  - eapply sameRegistry_trans; [apply perform_sameRegistry | apply IH].
Qed.

Lemma map_core_insertSorted x l :
  match Selection.insertSorted Selection.compareFn x l with
  | Ok r => Ok (map core r)
  | Throw e => Throw e
  end
  = Selection.insertSorted Selection.compareFn (core x) (map core l).
Proof.
  induction l as [| y l IH]; simpl; [reflexivity |].
  change (Selection.compareFn (core x) (core y))
    with (Selection.compareFn x y).
  destruct (Selection.compareFn x y) as [v | e]; [| reflexivity].
  destruct (Selection.isPositive v); [| reflexivity].
  rewrite <- IH.
  destruct (Selection.insertSorted Selection.compareFn x l); reflexivity.
Qed.

Lemma map_core_sort l :
  match Selection.sort Selection.compareFn l with
  | Ok r => Ok (map core r)
  | Throw e => Throw e
  end
  = Selection.sort Selection.compareFn (map core l).
Proof.
  induction l as [| x l IH]; simpl; [reflexivity |].
  rewrite <- IH.
  destruct (Selection.sort Selection.compareFn l) as [r | e];
    [| reflexivity].
  apply map_core_insertSorted.
Qed.

Lemma map_core_filter l :
  map core (List.filter connected l) = List.filter connected (map core l).
Proof.
  induction l as [| x l IH]; simpl; [reflexivity |].
  change (connected (core x)) with (connected x).
  destruct (connected x); simpl; rewrite IH; reflexivity.
Qed.

Lemma head_map {A B} (f : A -> B) (l : list A) : head (map f l) = f <$> head l.
Proof. destruct l; reflexivity. Qed.

(** Selection reads the registry up to the slot tables. *)
Lemma getRecommendedNode_core ns :
  upToSlots (Selection.getRecommendedNode ns)
  = Selection.getRecommendedNode
      (map (fun kn => (fst kn, core (snd kn))) ns).
Proof.
  unfold Selection.getRecommendedNode, Selection.connectedNodes, Object_values.
  rewrite map_map. simpl.
  rewrite <- (map_map snd core), <- map_core_filter, <- map_core_sort.
  rewrite length_map.
  destruct (Nat.eqb _ 0); [reflexivity |].
  destruct (Selection.sort Selection.compareFn _) as [r | e];
    [| reflexivity].
  simpl. rewrite head_map. reflexivity.
Qed.

(** X22: no sequence of calls changes the outcome of node selection: the
    same node is recommended before and after, or selection fails in the
    same way. *)
Theorem performAll_keeps_selection (cs : list Call) (s : State) :
  upToSlots (Selection.getRecommendedNode (Nodes (performAll cs s)))
  = upToSlots (Selection.getRecommendedNode (Nodes s)).
Proof.
  rewrite !getRecommendedNode_core.
  rewrite (performAll_sameRegistry cs s). reflexivity.
Qed.

